(** * Mergington High School activities API (src/app.py)

    A shallow embedding of the FastAPI application: the MongoDB collection
    [activities_collection] is the only state, every handler is a
    computation over it that either returns a JSON value or raises an
    exception, and the claims of the specification are theorems about
    these computations. *)

From Stdlib Require Import ZArith.
From stdpp Require Import base option list strings gmap.

Local Open Scope Z_scope.

(** ** Documents and the collection

    A document of [db.activities] is the Python dict
    [{"_id", "description", "schedule", "max_participants", "participants"}].
    The key ["_id"] is the activity name, [max_participants] a Python
    [int] (unbounded, hence [Z]) and [participants] a Python list of
    strings. Documents that lack one of the five keys are outside this
    type: the handlers would stop on them with a [KeyError]. *)

Record document := Document {
  _id : string;
  description : string;
  schedule : string;
  max_participants : Z;
  participants : list string;
}.

(** The collection is the sequence of its documents in natural
    (insertion) order. MongoDB keeps a unique index on ["_id"]; where a
    property depends on it, it is stated as [unique_ids]. *)

Abbreviation collection := (list document).

Definition unique_ids (c : collection) : Prop := NoDup (_id <$> c).

(** ** Outcomes and the handler monad

    A handler runs against the collection, may update it in place, and
    ends by returning a value or by raising. An exception does not roll
    the collection back: the state at the [raise] is the state after. *)

Inductive exn :=
  | HTTPException (status_code : Z) (detail : string)
  | BulkWriteError.

Inductive outcome (A : Type) :=
  | Return (a : A)
  | Raise (e : exn).
Arguments Return {A} a.
Arguments Raise {A} e.

Definition M (A : Type) : Type := collection → outcome A * collection.

Definition ret {A} (a : A) : M A := λ c, (Return a, c).

Definition raise {A} (e : exn) : M A := λ c, (Raise e, c).

Definition bind {A B} (m : M A) (k : A → M B) : M B :=
  λ c, match m c with
       | (Return a, c') => k a c'
       | (Raise e, c') => (Raise e, c')
       end.

Notation "'let*' x := m 'in' k" := (bind m (λ x, k))
  (at level 10, x name, m at level 100, k at level 200,
   format "'[v' 'let*'  x  :=  m  'in' '/' k ']'").
Notation "m ;;; k" := (bind m (λ _, k))
  (at level 100, k at level 200, right associativity).

(** ** The pymongo calls the application makes *)

Module Mongo.

(** [count_documents({})]: the empty filter matches every document. *)
Definition count_documents : M Z := λ c, (Return (Z.of_nat (length c)), c).

(** First document whose ["_id"] is [name], in natural order. *)
Fixpoint lookup_id (name : string) (c : collection) : option document :=
  match c with
  | [] => None
  | d :: c' => if decide (_id d = name) then Some d else lookup_id name c'
  end.

(** [find_one({"_id": name})]: the matching document, or [None]. *)
Definition find_one (name : string) : M (option document) :=
  λ c, (Return (lookup_id name c), c).

(** [find({})]: a cursor over all documents. *)
Definition find : M (list document) := λ c, (Return c, c).

(** Update operators on the ["participants"] array.
    [$addToSet] appends the value unless the array holds it already;
    [$pull] removes every element equal to the value. *)
Definition addToSet (v : string) (arr : list string) : list string :=
  if decide (v ∈ arr) then arr else arr ++ [v].

Definition pull (v : string) (arr : list string) : list string :=
  filter (λ x, x ≠ v) arr.

Definition on_participants (f : list string → list string)
    (d : document) : document :=
  {| _id := _id d;
     description := description d;
     schedule := schedule d;
     max_participants := max_participants d;
     participants := f (participants d) |}.

(** The first document whose ["_id"] is [name] is rewritten by [upd];
    nothing happens when there is none. *)
Fixpoint modify_id (name : string) (upd : document → document)
    (c : collection) : collection :=
  match c with
  | [] => []
  | d :: c' =>
      if decide (_id d = name) then upd d :: c'
      else d :: modify_id name upd c'
  end.

(** [update_one({"_id": name}, update)]; the [UpdateResult] is dropped
    by every caller. *)
Definition update_one (name : string) (upd : document → document) : M unit :=
  λ c, (Return (), modify_id name upd c).

(** [insert_many(docs)], ordered: documents are appended one by one and
    the first one whose ["_id"] is taken stops the call with a
    [BulkWriteError], the earlier ones staying inserted. *)
Fixpoint insert_many (docs : list document) : M unit :=
  match docs with
  | [] => ret ()
  | d :: docs' =>
      λ c, match lookup_id (_id d) c with
           | Some _ => (Raise BulkWriteError, c)
           | None => insert_many docs' (c ++ [d])
           end
  end.

End Mongo.

(** ** The application *)

Definition initial_activities : list document :=
  [ {| _id := "Chess Club";
       description := "Learn strategies and compete in chess tournaments";
       schedule := "Fridays, 3:30 PM - 5:00 PM";
       max_participants := 12;
       participants := ["michael@mergington.edu"; "daniel@mergington.edu"] |};
    {| _id := "Programming Class";
       description := "Learn programming fundamentals and build software projects";
       schedule := "Tuesdays and Thursdays, 3:30 PM - 4:30 PM";
       max_participants := 20;
       participants := ["emma@mergington.edu"; "sophia@mergington.edu"] |};
    {| _id := "Gym Class";
       description := "Physical education and sports activities";
       schedule := "Mondays, Wednesdays, Fridays, 2:00 PM - 3:00 PM";
       max_participants := 30;
       participants := ["john@mergington.edu"; "olivia@mergington.edu"] |};
    {| _id := "Soccer Team";
       description := "Join the school soccer team and compete in local leagues";
       schedule := "Tuesdays and Thursdays, 4:00 PM - 5:30 PM";
       max_participants := 18;
       participants := ["lucas@mergington.edu"; "mia@mergington.edu"] |};
    {| _id := "Basketball Club";
       description := "Practice basketball skills and play friendly matches";
       schedule := "Wednesdays, 3:30 PM - 5:00 PM";
       max_participants := 15;
       participants := ["liam@mergington.edu"; "ava@mergington.edu"] |};
    {| _id := "Art Club";
       description := "Explore painting, drawing, and other visual arts";
       schedule := "Mondays, 3:30 PM - 5:00 PM";
       max_participants := 16;
       participants := ["noah@mergington.edu"; "isabella@mergington.edu"] |};
    {| _id := "Drama Society";
       description := "Participate in acting, stage production, and school plays";
       schedule := "Thursdays, 4:00 PM - 5:30 PM";
       max_participants := 20;
       participants := ["ethan@mergington.edu"; "charlotte@mergington.edu"] |};
    {| _id := "Math Olympiad";
       description := "Prepare for math competitions and solve challenging problems";
       schedule := "Fridays, 2:00 PM - 3:30 PM";
       max_participants := 10;
       participants := ["amelia@mergington.edu"; "benjamin@mergington.edu"] |};
    {| _id := "Science Club";
       description := "Conduct experiments and explore scientific concepts";
       schedule := "Wednesdays, 4:00 PM - 5:00 PM";
       max_participants := 14;
       participants := ["elijah@mergington.edu"; "harper@mergington.edu"] |} ].

(** [initialize_database()]: the two [print] calls are not modelled. *)
Definition initialize_database : M unit :=
  let* n := Mongo.count_documents in
  if decide (n = 0) then Mongo.insert_many initial_activities
  else ret ().

(** The value stored under an activity name in the answer of
    [GET /activities]: the document without its ["_id"]. *)
Record activity_data := ActivityData {
  data_description : string;
  data_schedule : string;
  data_max_participants : Z;
  data_participants : list string;
}.

Definition activity_data_of (activity : document) : activity_data :=
  {| data_description := description activity;
     data_schedule := schedule activity;
     data_max_participants := max_participants activity;
     data_participants := participants activity |}.

(** [get_activities()]: the loop over the cursor assigns
    [activities_dict[activity_name] = activity_data] for each document in
    turn, so a later document with the same name would overwrite an
    earlier one. *)
Definition get_activities : M (gmap string activity_data) :=
  let* activities_cursor := Mongo.find in
  ret (foldl (λ activities_dict activity,
                <[_id activity := activity_data_of activity]> activities_dict)
             ∅ activities_cursor).

(** [signup_for_activity(activity_name, email)]. [not activity] holds
    only for [None]: a document found by its ["_id"] is a non-empty
    dict. *)
Definition signup_for_activity (activity_name email : string)
    : M (gmap string string) :=
  let* activity := Mongo.find_one activity_name in
  match activity with
  | None => raise (HTTPException 404 "Activity not found")
  | Some activity =>
      if decide (email ∈ participants activity) then
        raise (HTTPException 400 "Already signed up for this activity")
      else if decide (Z.of_nat (length (participants activity))
                        >= max_participants activity) then
        raise (HTTPException 400 "Activity is full")
      else
        Mongo.update_one activity_name
          (Mongo.on_participants (Mongo.addToSet email)) ;;;
        ret {[ "message" := "Signed up " +:+ email +:+ " for " +:+ activity_name ]}
  end.

(** [unregister_from_activity(activity_name, email)]. *)
Definition unregister_from_activity (activity_name email : string)
    : M (gmap string string) :=
  let* activity := Mongo.find_one activity_name in
  match activity with
  | None => raise (HTTPException 404 "Activity not found")
  | Some activity =>
      if decide (email ∉ participants activity) then
        raise (HTTPException 400 "Student not registered for this activity")
      else
        Mongo.update_one activity_name
          (Mongo.on_participants (Mongo.pull email)) ;;;
        ret {[ "message" := "Unregistered " +:+ email +:+ " from " +:+ activity_name ]}
  end.

(** The status line FastAPI sends for an outcome: 200 for a returned
    value, the exception's own [status_code] for an [HTTPException], 500
    for anything else that escapes the handler. *)
Definition http_status {A} (o : outcome A) : Z :=
  match o with
  | Return _ => 200
  | Raise (HTTPException status_code _) => status_code
  | Raise BulkWriteError => 500
  end.

(** The store right after start-up on an empty database. *)
Definition seeded : collection := (initialize_database []).2.

Example seeded_is_initial : seeded = initial_activities.
Proof. reflexivity. Qed.

Example signup_new_chess :
  (signup_for_activity "Chess Club" "new@mergington.edu" seeded).1
  = Return {[ "message" := "Signed up new@mergington.edu for Chess Club" ]}.
Proof. vm_compute. reflexivity. Qed.

(** The spec's first scenario: after that signup the listing shows the
    new email in the roster of Chess Club. *)
Example listing_after_signup_new_chess :
  data_participants
    <$> ((λ o, match o with Return listing => listing | Raise _ => ∅ end)
           (get_activities
              (signup_for_activity "Chess Club" "new@mergington.edu"
                 seeded).2).1
         !! "Chess Club")
  = Some ["michael@mergington.edu"; "daniel@mergington.edu";
          "new@mergington.edu"].
Proof. vm_compute. reflexivity. Qed.

(** ** Facts about the collection primitives *)

Section collection_facts.
Implicit Types (c : collection) (d : document) (name email : string).

Lemma lookup_id_Some name c d :
  Mongo.lookup_id name c = Some d → d ∈ c ∧ _id d = name.
Proof.
  induction c as [|d0 c IH]; simpl; [done|].
  case_decide as Hid.
  - intros [= <-]. split; [left | done].
  - intros Hd. destruct (IH Hd) as [Hin ?]. split; [by right | done].
Qed.

Lemma lookup_id_None name c :
  Mongo.lookup_id name c = None ↔ name ∉ _id <$> c.
Proof.
  induction c as [|d0 c IH]; simpl.
  - split; [intros _; apply not_elem_of_nil | done].
  - case_decide as Hid.
    + split; [done|]. intros Hn. exfalso. apply Hn. subst name. left.
    + rewrite IH, not_elem_of_cons. intuition congruence.
Qed.

Lemma lookup_id_unique c d :
  unique_ids c → d ∈ c → Mongo.lookup_id (_id d) c = Some d.
Proof.
  unfold unique_ids.
  induction c as [|d0 c IH]; simpl; intros Hnd Hin.
  - by apply elem_of_nil in Hin.
  - apply NoDup_cons in Hnd as [Hfresh Hnd].
    apply elem_of_cons in Hin as [->|Hin]; [by rewrite decide_True|].
    rewrite decide_False; [by apply IH|].
    intros Heq. apply Hfresh. rewrite Heq. by apply list_elem_of_fmap_2.
Qed.

(** An update that keeps the ["_id"] is seen by the next lookup of that
    name and by no lookup of another name. *)
Lemma lookup_modify_eq name upd c :
  (∀ d, _id (upd d) = _id d) →
  Mongo.lookup_id name (Mongo.modify_id name upd c)
  = upd <$> Mongo.lookup_id name c.
Proof.
  intros Hupd. induction c as [|d0 c IH]; simpl; [done|].
  case_decide as Hid; simpl.
  - by rewrite decide_True by (by rewrite Hupd).
  - by rewrite decide_False.
Qed.

Lemma lookup_modify_ne name name' upd c :
  (∀ d, _id (upd d) = _id d) → name' ≠ name →
  Mongo.lookup_id name' (Mongo.modify_id name upd c)
  = Mongo.lookup_id name' c.
Proof.
  intros Hupd Hne. induction c as [|d0 c IH]; simpl; [done|].
  case_decide as Hid; simpl.
  - rewrite Hupd. by rewrite !decide_False by congruence.
  - by rewrite IH.
Qed.

Lemma modify_id_absent name upd c :
  Mongo.lookup_id name c = None → Mongo.modify_id name upd c = c.
Proof.
  induction c as [|d0 c IH]; simpl; [done|].
  case_decide; [done|]. intros Hn. by rewrite IH.
Qed.

(** The frame of an update: positions are kept, and each document is
    either left alone or, for the first one called [name], replaced by
    its image. *)
Lemma modify_id_Forall2 name upd c :
  Forall2 (λ d d', d' = d ∨ (_id d = name ∧ d' = upd d))
          c (Mongo.modify_id name upd c).
Proof.
  induction c as [|d0 c IH]; simpl; [constructor|].
  case_decide as Hid.
  - constructor; [by right|]. apply Forall2_same_length_lookup_2; [done|].
    intros i x y Hx Hy. left. congruence.
  - constructor; [by left | done].
Qed.

Lemma modify_id_Forall (P : document → Prop) name upd c :
  Forall P c →
  (∀ d, Mongo.lookup_id name c = Some d → P (upd d)) →
  Forall P (Mongo.modify_id name upd c).
Proof.
  induction 1 as [|d0 c Hd0 Hc IH]; simpl; intros Hupd; [constructor|].
  case_decide as Hid.
  - constructor; [|done]. by apply Hupd.
  - constructor; [done|]. by apply IH.
Qed.

Lemma on_participants_id f d : _id (Mongo.on_participants f d) = _id d.
Proof. done. Qed.

Lemma addToSet_fresh email arr :
  email ∉ arr → Mongo.addToSet email arr = arr ++ [email].
Proof. intros Hn. unfold Mongo.addToSet. by rewrite decide_False. Qed.

Lemma addToSet_NoDup email arr :
  NoDup arr → NoDup (Mongo.addToSet email arr).
Proof.
  intros Hnd. unfold Mongo.addToSet. case_decide as Hin; [done|].
  apply NoDup_app. split_and!; [done| |apply NoDup_singleton].
  intros x Hx Hx'. apply list_elem_of_singleton in Hx'. by subst.
Qed.

Lemma pull_absent email arr : email ∉ Mongo.pull email arr.
Proof. unfold Mongo.pull. rewrite list_elem_of_filter. by intros [? _]. Qed.

Lemma pull_NoDup email arr : NoDup arr → NoDup (Mongo.pull email arr).
Proof. apply NoDup_filter. Qed.

Lemma pull_length email arr :
  (length (Mongo.pull email arr) ≤ length arr)%nat.
Proof. apply length_filter. Qed.

End collection_facts.

(** ** The handlers, case by case

    Each lemma runs a handler on a collection in which the looked-up
    document and the outcome of the guards are known. *)

Section handler_cases.
Implicit Types (c : collection) (activity : document).
Implicit Types (activity_name email : string).

Lemma signup_not_found activity_name email c :
  Mongo.lookup_id activity_name c = None →
  signup_for_activity activity_name email c
  = (Raise (HTTPException 404 "Activity not found"), c).
Proof.
  intros Hfind. unfold signup_for_activity, bind, Mongo.find_one.
  by rewrite Hfind.
Qed.

Lemma signup_already activity_name email c activity :
  Mongo.lookup_id activity_name c = Some activity →
  email ∈ participants activity →
  signup_for_activity activity_name email c
  = (Raise (HTTPException 400 "Already signed up for this activity"), c).
Proof.
  intros Hfind Hin. unfold signup_for_activity, bind, Mongo.find_one.
  rewrite Hfind. by rewrite decide_True.
Qed.

Lemma signup_full activity_name email c activity :
  Mongo.lookup_id activity_name c = Some activity →
  email ∉ participants activity →
  Z.of_nat (length (participants activity)) >= max_participants activity →
  signup_for_activity activity_name email c
  = (Raise (HTTPException 400 "Activity is full"), c).
Proof.
  intros Hfind Hin Hlen. unfold signup_for_activity, bind, Mongo.find_one.
  rewrite Hfind. rewrite decide_False by done. by rewrite decide_True.
Qed.

Lemma signup_ok activity_name email c activity :
  Mongo.lookup_id activity_name c = Some activity →
  email ∉ participants activity →
  Z.of_nat (length (participants activity)) < max_participants activity →
  signup_for_activity activity_name email c
  = (Return {[ "message" :=
                 "Signed up " +:+ email +:+ " for " +:+ activity_name ]},
     Mongo.modify_id activity_name
       (Mongo.on_participants (Mongo.addToSet email)) c).
Proof.
  intros Hfind Hin Hlen. unfold signup_for_activity, bind, Mongo.find_one.
  rewrite Hfind. rewrite decide_False by done.
  by rewrite decide_False by lia.
Qed.

Lemma unregister_not_found activity_name email c :
  Mongo.lookup_id activity_name c = None →
  unregister_from_activity activity_name email c
  = (Raise (HTTPException 404 "Activity not found"), c).
Proof.
  intros Hfind. unfold unregister_from_activity, bind, Mongo.find_one.
  by rewrite Hfind.
Qed.

Lemma unregister_not_registered activity_name email c activity :
  Mongo.lookup_id activity_name c = Some activity →
  email ∉ participants activity →
  unregister_from_activity activity_name email c
  = (Raise (HTTPException 400 "Student not registered for this activity"), c).
Proof.
  intros Hfind Hin. unfold unregister_from_activity, bind, Mongo.find_one.
  rewrite Hfind. by rewrite decide_True.
Qed.

Lemma unregister_ok activity_name email c activity :
  Mongo.lookup_id activity_name c = Some activity →
  email ∈ participants activity →
  unregister_from_activity activity_name email c
  = (Return {[ "message" :=
                 "Unregistered " +:+ email +:+ " from " +:+ activity_name ]},
     Mongo.modify_id activity_name
       (Mongo.on_participants (Mongo.pull email)) c).
Proof.
  intros Hfind Hin. unfold unregister_from_activity, bind, Mongo.find_one.
  rewrite Hfind. by rewrite decide_False by (by intros ?).
Qed.

(** Whatever the outcome, the collection after a handler is the one
    before or the one [update_one] leaves. *)
Lemma signup_state activity_name email c :
  (signup_for_activity activity_name email c).2 = c ∨
  ∃ activity,
    Mongo.lookup_id activity_name c = Some activity ∧
    (email ∉ participants activity) ∧
    Z.of_nat (length (participants activity)) < max_participants activity ∧
    (signup_for_activity activity_name email c).2
    = Mongo.modify_id activity_name
        (Mongo.on_participants (Mongo.addToSet email)) c.
Proof.
  destruct (Mongo.lookup_id activity_name c) as [activity|] eqn:Hfind.
  - destruct (decide (email ∈ participants activity)) as [Hin|Hin].
    { left. by erewrite signup_already. }
    destruct (decide (Z.of_nat (length (participants activity))
                        >= max_participants activity)) as [Hlen|Hlen].
    { left. by erewrite signup_full. }
    right. exists activity. split_and!; [done|done|lia|].
    by rewrite (signup_ok _ _ _ activity) by (done || lia).
  - left. by rewrite signup_not_found.
Qed.

Lemma unregister_state activity_name email c :
  (unregister_from_activity activity_name email c).2 = c ∨
  ∃ activity,
    Mongo.lookup_id activity_name c = Some activity ∧
    email ∈ participants activity ∧
    (unregister_from_activity activity_name email c).2
    = Mongo.modify_id activity_name
        (Mongo.on_participants (Mongo.pull email)) c.
Proof.
  destruct (Mongo.lookup_id activity_name c) as [activity|] eqn:Hfind.
  - destruct (decide (email ∈ participants activity)) as [Hin|Hin].
    + right. exists activity. split_and!; [done|done|].
      by erewrite unregister_ok.
    + left. by erewrite unregister_not_registered.
  - left. by rewrite unregister_not_found.
Qed.

End handler_cases.

(** ** C1: the roster invariant *)

(** A roster fits when it is no longer than the activity's capacity and
    holds no email twice. *)
Definition roster_fits (d : document) : Prop :=
  Z.of_nat (length (participants d)) <= max_participants d
  ∧ NoDup (participants d).

#[global] Instance roster_fits_dec d : Decision (roster_fits d).
Proof. unfold roster_fits. apply _. Defined.

(** The collections the service can be in: the seeded one, and those a
    successful signup or unregister call leaves. *)
Inductive reachable : collection → Prop :=
  | reachable_seeded : reachable seeded
  | reachable_signup c activity_name email msg c' :
      reachable c →
      signup_for_activity activity_name email c = (Return msg, c') →
      reachable c'
  | reachable_unregister c activity_name email msg c' :
      reachable c →
      unregister_from_activity activity_name email c = (Return msg, c') →
      reachable c'.

Section roster_invariant.
Implicit Types (c : collection) (activity_name email : string).

Lemma seeded_roster_fits : Forall roster_fits seeded.
Proof.
  apply (bool_decide_unpack _). by vm_compute.
Qed.

Lemma signup_roster_fits activity_name email c :
  Forall roster_fits c →
  Forall roster_fits (signup_for_activity activity_name email c).2.
Proof.
  intros Hc.
  destruct (signup_state activity_name email c)
    as [->|(activity & Hfind & Hin & Hlen & ->)]; [done|].
  apply modify_id_Forall; [done|]. intros d Hd.
  assert (d = activity) as -> by congruence.
  apply lookup_id_Some in Hfind as [Hmem _].
  rewrite Forall_forall in Hc. destruct (Hc _ Hmem) as [_ Hnd].
  split; simpl.
  - rewrite addToSet_fresh by done. rewrite length_app. simpl. lia.
  - by apply addToSet_NoDup.
Qed.

Lemma unregister_roster_fits activity_name email c :
  Forall roster_fits c →
  Forall roster_fits (unregister_from_activity activity_name email c).2.
Proof.
  intros Hc.
  destruct (unregister_state activity_name email c)
    as [->|(activity & Hfind & Hin & ->)]; [done|].
  apply modify_id_Forall; [done|]. intros d Hd.
  assert (d = activity) as -> by congruence.
  apply lookup_id_Some in Hfind as [Hmem _].
  rewrite Forall_forall in Hc. destruct (Hc _ Hmem) as [Hle Hnd].
  split; simpl.
  - pose proof (pull_length email (participants activity)). lia.
  - by apply pull_NoDup.
Qed.

End roster_invariant.

(** C1. In every collection reached from the seeded one through
    successful signup and unregister calls, each activity has at most
    [max_participants] participants and lists no email twice. *)
Theorem reachable_roster_fits (c : collection) (A : document) :
  reachable c → A ∈ c →
  Z.of_nat (length (participants A)) <= max_participants A
  ∧ NoDup (participants A).
Proof.
  intros Hreach. revert A. apply Forall_forall. fold roster_fits.
  induction Hreach as [|c name email msg c' _ IH Hrun
                        |c name email msg c' _ IH Hrun].
  - apply seeded_roster_fits.
  - replace c' with (signup_for_activity name email c).2 by by rewrite Hrun.
    by apply signup_roster_fits.
  - replace c' with (unregister_from_activity name email c).2
      by by rewrite Hrun.
    by apply unregister_roster_fits.
Qed.

(** Concrete stores and documents used to run the theorems. *)

Definition chess_club : document :=
  {| _id := "Chess Club";
     description := "Learn strategies and compete in chess tournaments";
     schedule := "Fridays, 3:30 PM - 5:00 PM";
     max_participants := 12;
     participants := ["michael@mergington.edu"; "daniel@mergington.edu"] |}.

(** A one-seat activity whose seat is taken. *)
Definition debate_duo : document :=
  {| _id := "Debate";
     description := "Weekly debate";
     schedule := "Mondays";
     max_participants := 1;
     participants := ["ann@mergington.edu"] |}.

Example chess_club_seeded : Mongo.lookup_id "Chess Club" seeded = Some chess_club.
Proof. reflexivity. Qed.

Lemma reachable_roster_fits_witness :
  let c := (signup_for_activity "Chess Club" "new@mergington.edu" seeded).2 in
  let A := Mongo.on_participants (λ ps, ps ++ ["new@mergington.edu"]) chess_club in
  reachable c ∧ A ∈ c ∧
  Z.of_nat (length (participants A)) <= max_participants A
  ∧ NoDup (participants A).
Proof.
  intros c A.
  assert (Hc : reachable c).
  { apply (reachable_signup seeded "Chess Club" "new@mergington.edu"
             {[ "message" := "Signed up new@mergington.edu for Chess Club" ]}
             c reachable_seeded).
    vm_compute. reflexivity. }
  assert (HA : A ∈ c) by (vm_compute; left).
  split; [exact Hc|]. split; [exact HA|].
  exact (reachable_roster_fits c A Hc HA).
Defined.

(** ** C2, C3: the outcomes of signup and unregister *)

(** C2. Signup raises 404 "Activity not found" when no document has the
    name; otherwise 400 "Already signed up for this activity" when the
    email is in the roster; otherwise 400 "Activity is full" when the
    roster has reached [max_participants]; otherwise it appends the email
    to the roster and answers 200 with the confirmation message. *)
Theorem signup_contract (activity_name email : string) (c : collection) :
  (Mongo.lookup_id activity_name c = None →
   signup_for_activity activity_name email c
   = (Raise (HTTPException 404 "Activity not found"), c))
  ∧ ∀ activity, Mongo.lookup_id activity_name c = Some activity →
    (email ∈ participants activity →
     signup_for_activity activity_name email c
     = (Raise (HTTPException 400 "Already signed up for this activity"), c))
    ∧ (email ∉ participants activity →
       Z.of_nat (length (participants activity)) >= max_participants activity →
       signup_for_activity activity_name email c
       = (Raise (HTTPException 400 "Activity is full"), c))
    ∧ (email ∉ participants activity →
       Z.of_nat (length (participants activity)) < max_participants activity →
       ∃ c',
         signup_for_activity activity_name email c
         = (Return {[ "message" :=
                        "Signed up " +:+ email +:+ " for " +:+ activity_name ]},
            c')
         ∧ http_status (signup_for_activity activity_name email c).1 = 200
         ∧ Mongo.lookup_id activity_name c'
           = Some {| _id := _id activity;
                     description := description activity;
                     schedule := schedule activity;
                     max_participants := max_participants activity;
                     participants := participants activity ++ [email] |}
         ∧ ∀ name, name ≠ activity_name →
             Mongo.lookup_id name c' = Mongo.lookup_id name c).
Proof.
  split; [apply signup_not_found|]. intros activity Hfind. split_and!.
  - by apply signup_already.
  - by apply signup_full.
  - intros Hin Hlen. eexists. split_and!.
    + by apply (signup_ok _ _ _ activity).
    + by rewrite (signup_ok _ _ _ activity).
    + rewrite lookup_modify_eq by apply on_participants_id.
      rewrite Hfind. simpl. unfold Mongo.on_participants.
      by rewrite addToSet_fresh.
    + intros name Hne.
      by rewrite lookup_modify_ne by (done || apply on_participants_id).
Qed.

Lemma signup_contract_witness :
  signup_for_activity "Robotics" "new@mergington.edu" seeded
  = (Raise (HTTPException 404 "Activity not found"), seeded)
  ∧ signup_for_activity "Chess Club" "michael@mergington.edu" seeded
    = (Raise (HTTPException 400 "Already signed up for this activity"), seeded)
  ∧ signup_for_activity "Debate" "bob@mergington.edu" [debate_duo]
    = (Raise (HTTPException 400 "Activity is full"), [debate_duo])
  ∧ ∃ c', signup_for_activity "Chess Club" "new@mergington.edu" seeded
          = (Return {[ "message" :=
                         "Signed up new@mergington.edu for Chess Club" ]}, c')
          ∧ http_status
              (signup_for_activity "Chess Club" "new@mergington.edu" seeded).1
            = 200
          ∧ Mongo.lookup_id "Chess Club" c'
            = Some {| _id := "Chess Club";
                      description :=
                        "Learn strategies and compete in chess tournaments";
                      schedule := "Fridays, 3:30 PM - 5:00 PM";
                      max_participants := 12;
                      participants :=
                        ["michael@mergington.edu"; "daniel@mergington.edu";
                         "new@mergington.edu"] |}
          ∧ ∀ name, name ≠ "Chess Club" →
              Mongo.lookup_id name c' = Mongo.lookup_id name seeded.
Proof.
  split_and!.
  - apply (signup_contract "Robotics" "new@mergington.edu" seeded).
    reflexivity.
  - destruct (signup_contract "Chess Club" "michael@mergington.edu" seeded)
      as [_ Hfound].
    apply (Hfound chess_club eq_refl).
    apply (bool_decide_unpack _). by vm_compute.
  - destruct (signup_contract "Debate" "bob@mergington.edu" [debate_duo])
      as [_ Hfound].
    apply (Hfound debate_duo eq_refl); [|simpl; lia].
    apply (bool_decide_unpack _). by vm_compute.
  - destruct (signup_contract "Chess Club" "new@mergington.edu" seeded)
      as [_ Hfound].
    apply (Hfound chess_club eq_refl); [|simpl; lia].
    apply (bool_decide_unpack _). by vm_compute.
Defined.

(** C3. Unregister raises 404 "Activity not found" when no document has
    the name; otherwise 400 "Student not registered for this activity"
    when the email is not in the roster; otherwise it removes the email
    from the roster and answers 200 with the confirmation message. *)
Theorem unregister_contract (activity_name email : string) (c : collection) :
  (Mongo.lookup_id activity_name c = None →
   unregister_from_activity activity_name email c
   = (Raise (HTTPException 404 "Activity not found"), c))
  ∧ ∀ activity, Mongo.lookup_id activity_name c = Some activity →
    (email ∉ participants activity →
     unregister_from_activity activity_name email c
     = (Raise (HTTPException 400 "Student not registered for this activity"),
        c))
    ∧ (email ∈ participants activity →
       ∃ c' activity',
         unregister_from_activity activity_name email c
         = (Return {[ "message" :=
                        "Unregistered " +:+ email +:+ " from "
                        +:+ activity_name ]},
            c')
         ∧ http_status (unregister_from_activity activity_name email c).1 = 200
         ∧ Mongo.lookup_id activity_name c' = Some activity'
         ∧ activity'
           = {| _id := _id activity;
                description := description activity;
                schedule := schedule activity;
                max_participants := max_participants activity;
                participants :=
                  filter (λ x, x ≠ email) (participants activity) |}
         ∧ (email ∉ participants activity')
         ∧ (∀ other, other ≠ email →
              other ∈ participants activity' ↔ other ∈ participants activity)
         ∧ ∀ name, name ≠ activity_name →
             Mongo.lookup_id name c' = Mongo.lookup_id name c).
Proof.
  split; [apply unregister_not_found|]. intros activity Hfind. split.
  - by apply unregister_not_registered.
  - intros Hin. eexists _, _. split_and!.
    + by apply (unregister_ok _ _ _ activity).
    + by rewrite (unregister_ok _ _ _ activity).
    + rewrite lookup_modify_eq by apply on_participants_id.
      by rewrite Hfind.
    + done.
    + apply pull_absent.
    + intros other Hne. simpl. unfold Mongo.pull.
      rewrite list_elem_of_filter. by intuition.
    + intros name Hne.
      by rewrite lookup_modify_ne by (done || apply on_participants_id).
Qed.

Lemma unregister_contract_witness :
  unregister_from_activity "Robotics" "michael@mergington.edu" seeded
  = (Raise (HTTPException 404 "Activity not found"), seeded)
  ∧ unregister_from_activity "Chess Club" "new@mergington.edu" seeded
    = (Raise (HTTPException 400 "Student not registered for this activity"),
       seeded)
  ∧ ∃ c' activity',
      unregister_from_activity "Chess Club" "michael@mergington.edu" seeded
      = (Return {[ "message" :=
                     "Unregistered michael@mergington.edu from Chess Club" ]},
         c')
      ∧ http_status
          (unregister_from_activity "Chess Club" "michael@mergington.edu"
             seeded).1 = 200
      ∧ Mongo.lookup_id "Chess Club" c' = Some activity'
      ∧ activity'
        = {| _id := "Chess Club";
             description :=
               "Learn strategies and compete in chess tournaments";
             schedule := "Fridays, 3:30 PM - 5:00 PM";
             max_participants := 12;
             participants := ["daniel@mergington.edu"] |}
      ∧ ("michael@mergington.edu" ∉ participants activity')
      ∧ (∀ other, other ≠ "michael@mergington.edu" →
           other ∈ participants activity' ↔ other ∈ participants chess_club)
      ∧ ∀ name, name ≠ "Chess Club" →
          Mongo.lookup_id name c' = Mongo.lookup_id name seeded.
Proof.
  split_and!.
  - apply (unregister_contract "Robotics" "michael@mergington.edu" seeded).
    reflexivity.
  - destruct (unregister_contract "Chess Club" "new@mergington.edu" seeded)
      as [_ Hfound].
    apply (Hfound chess_club eq_refl).
    apply (bool_decide_unpack _). by vm_compute.
  - destruct (unregister_contract "Chess Club" "michael@mergington.edu"
                seeded) as [_ Hfound].
    apply (Hfound chess_club eq_refl).
    apply (bool_decide_unpack _). by vm_compute.
Defined.

(** ** C4, C5, C9: rejected signups *)

(** C4. Signing up an email that the activity's roster already holds
    raises the "already signed up" error and leaves the whole collection
    as it was. *)
Theorem signup_registered_unchanged
    (activity_name email : string) (c : collection) (A : document) :
  Mongo.lookup_id activity_name c = Some A →
  email ∈ participants A →
  (signup_for_activity activity_name email c).1
  = Raise (HTTPException 400 "Already signed up for this activity")
  ∧ (signup_for_activity activity_name email c).2 = c.
Proof.
  intros Hfind Hin. by rewrite (signup_already _ _ _ A).
Qed.

Lemma signup_registered_unchanged_witness :
  (signup_for_activity "Chess Club" "daniel@mergington.edu" seeded).1
  = Raise (HTTPException 400 "Already signed up for this activity")
  ∧ (signup_for_activity "Chess Club" "daniel@mergington.edu" seeded).2
    = seeded.
Proof.
  apply (signup_registered_unchanged "Chess Club" "daniel@mergington.edu"
           seeded chess_club).
  - reflexivity.
  - apply (bool_decide_unpack _). by vm_compute.
Defined.

(** C5. When the roster of an activity holds exactly [max_participants]
    emails, signing up an email that is not among them raises the "full"
    error, and neither that roster nor anything else in the collection
    changes. *)
Theorem signup_at_capacity_unchanged
    (activity_name email : string) (c : collection) (A : document) :
  Mongo.lookup_id activity_name c = Some A →
  Z.of_nat (length (participants A)) = max_participants A →
  email ∉ participants A →
  (signup_for_activity activity_name email c).1
  = Raise (HTTPException 400 "Activity is full")
  ∧ (signup_for_activity activity_name email c).2 = c
  ∧ Mongo.lookup_id activity_name
      (signup_for_activity activity_name email c).2 = Some A.
Proof.
  intros Hfind Hlen Hin. by rewrite (signup_full _ _ _ A) by (done || lia).
Qed.

Lemma signup_at_capacity_unchanged_witness :
  (signup_for_activity "Debate" "bob@mergington.edu" [debate_duo]).1
  = Raise (HTTPException 400 "Activity is full")
  ∧ (signup_for_activity "Debate" "bob@mergington.edu" [debate_duo]).2
    = [debate_duo]
  ∧ Mongo.lookup_id "Debate"
      (signup_for_activity "Debate" "bob@mergington.edu" [debate_duo]).2
    = Some debate_duo.
Proof.
  apply (signup_at_capacity_unchanged "Debate" "bob@mergington.edu"
           [debate_duo] debate_duo).
  - reflexivity.
  - reflexivity.
  - apply (bool_decide_unpack _). by vm_compute.
Defined.

(** C9. When the email is already in the roster and the roster is at or
    above capacity as well, signup raises "Already signed up for this
    activity" and not "Activity is full": the membership guard comes
    first. *)
Theorem signup_registered_before_full
    (activity_name email : string) (c : collection) (A : document) :
  Mongo.lookup_id activity_name c = Some A →
  email ∈ participants A →
  Z.of_nat (length (participants A)) >= max_participants A →
  (signup_for_activity activity_name email c).1
  = Raise (HTTPException 400 "Already signed up for this activity")
  ∧ (signup_for_activity activity_name email c).1
    ≠ Raise (HTTPException 400 "Activity is full").
Proof.
  intros Hfind Hin _. by rewrite (signup_already _ _ _ A).
Qed.

Lemma signup_registered_before_full_witness :
  (signup_for_activity "Debate" "ann@mergington.edu" [debate_duo]).1
  = Raise (HTTPException 400 "Already signed up for this activity")
  ∧ (signup_for_activity "Debate" "ann@mergington.edu" [debate_duo]).1
    ≠ Raise (HTTPException 400 "Activity is full").
Proof.
  apply (signup_registered_before_full "Debate" "ann@mergington.edu"
           [debate_duo] debate_duo).
  - reflexivity.
  - apply (bool_decide_unpack _). by vm_compute.
  - simpl. lia.
Defined.

(** ** C6: unregistering an email that is not registered *)

(** C6. Unregistering an email that the activity's roster does not hold
    raises [HTTPException(400, "Student not registered for this
    activity")] and leaves the collection as it was; hence, when the
    email is in the roster, a first unregister call succeeds with 200 and
    the same call repeated on the resulting collection fails with that
    error. *)
Theorem unregister_absent_unchanged
    (activity_name email : string) (c : collection) (A : document) :
  Mongo.lookup_id activity_name c = Some A →
  (email ∉ participants A →
   unregister_from_activity activity_name email c
   = (Raise (HTTPException 400 "Student not registered for this activity"), c)
   ∧ http_status (unregister_from_activity activity_name email c).1 = 400)
  ∧ (email ∈ participants A →
     ∃ msg c',
       unregister_from_activity activity_name email c = (Return msg, c')
       ∧ http_status (unregister_from_activity activity_name email c).1 = 200
       ∧ unregister_from_activity activity_name email c'
         = (Raise (HTTPException 400
                     "Student not registered for this activity"), c')
       ∧ http_status (unregister_from_activity activity_name email c').1
         = 400).
Proof.
  intros Hfind. split.
  - intros Hin. by rewrite (unregister_not_registered _ _ _ A).
  - intros Hin. eexists _, _. rewrite (unregister_ok _ _ _ A) by done.
    set (c' := Mongo.modify_id _ _ c).
    assert (Hfind' : Mongo.lookup_id activity_name c'
                     = Some (Mongo.on_participants (Mongo.pull email) A)).
    { unfold c'. rewrite lookup_modify_eq by apply on_participants_id.
      by rewrite Hfind. }
    rewrite (unregister_not_registered _ _ _ _ Hfind')
      by apply pull_absent.
    done.
Qed.

Lemma unregister_absent_unchanged_witness :
  (unregister_from_activity "Chess Club" "new@mergington.edu" seeded
   = (Raise (HTTPException 400 "Student not registered for this activity"),
      seeded)
   ∧ http_status
       (unregister_from_activity "Chess Club" "new@mergington.edu" seeded).1
     = 400)
  ∧ ∃ msg c',
      unregister_from_activity "Chess Club" "michael@mergington.edu" seeded
      = (Return msg, c')
      ∧ http_status
          (unregister_from_activity "Chess Club" "michael@mergington.edu"
             seeded).1 = 200
      ∧ unregister_from_activity "Chess Club" "michael@mergington.edu" c'
        = (Raise (HTTPException 400
                    "Student not registered for this activity"), c')
      ∧ http_status
          (unregister_from_activity "Chess Club" "michael@mergington.edu"
             c').1 = 400.
Proof.
  split.
  - apply (unregister_absent_unchanged "Chess Club" "new@mergington.edu"
             seeded chess_club eq_refl).
    apply (bool_decide_unpack _). by vm_compute.
  - apply (unregister_absent_unchanged "Chess Club" "michael@mergington.edu"
             seeded chess_club eq_refl).
    apply (bool_decide_unpack _). by vm_compute.
Defined.

(** ** C7: seeding *)

Section seeding.
Implicit Types (c : collection).

Lemma initialize_database_empty :
  initialize_database [] = (Return (), initial_activities).
Proof. reflexivity. Qed.

Lemma initialize_database_nonempty c :
  c ≠ [] → initialize_database c = (Return (), c).
Proof.
  destruct c as [|d c]; [done|]. intros _.
  unfold initialize_database, bind, Mongo.count_documents.
  rewrite decide_False; [done|]. simpl length. lia.
Qed.

End seeding.

(** The answer of [GET /activities] on the seeded store, written out. *)
Definition seeded_listing : gmap string activity_data :=
  list_to_map
    [
      ("Chess Club",
       {| data_description :=
             "Learn strategies and compete in chess tournaments";
           data_schedule := "Fridays, 3:30 PM - 5:00 PM";
           data_max_participants := 12;
           data_participants :=
             ["michael@mergington.edu"; "daniel@mergington.edu"] |});
      ("Programming Class",
       {| data_description :=
             "Learn programming fundamentals and build software projects";
           data_schedule := "Tuesdays and Thursdays, 3:30 PM - 4:30 PM";
           data_max_participants := 20;
           data_participants :=
             ["emma@mergington.edu"; "sophia@mergington.edu"] |});
      ("Gym Class",
       {| data_description :=
             "Physical education and sports activities";
           data_schedule := "Mondays, Wednesdays, Fridays, 2:00 PM - 3:00 PM";
           data_max_participants := 30;
           data_participants :=
             ["john@mergington.edu"; "olivia@mergington.edu"] |});
      ("Soccer Team",
       {| data_description :=
             "Join the school soccer team and compete in local leagues";
           data_schedule := "Tuesdays and Thursdays, 4:00 PM - 5:30 PM";
           data_max_participants := 18;
           data_participants :=
             ["lucas@mergington.edu"; "mia@mergington.edu"] |});
      ("Basketball Club",
       {| data_description :=
             "Practice basketball skills and play friendly matches";
           data_schedule := "Wednesdays, 3:30 PM - 5:00 PM";
           data_max_participants := 15;
           data_participants :=
             ["liam@mergington.edu"; "ava@mergington.edu"] |});
      ("Art Club",
       {| data_description :=
             "Explore painting, drawing, and other visual arts";
           data_schedule := "Mondays, 3:30 PM - 5:00 PM";
           data_max_participants := 16;
           data_participants :=
             ["noah@mergington.edu"; "isabella@mergington.edu"] |});
      ("Drama Society",
       {| data_description :=
             "Participate in acting, stage production, and school plays";
           data_schedule := "Thursdays, 4:00 PM - 5:30 PM";
           data_max_participants := 20;
           data_participants :=
             ["ethan@mergington.edu"; "charlotte@mergington.edu"] |});
      ("Math Olympiad",
       {| data_description :=
             "Prepare for math competitions and solve challenging problems";
           data_schedule := "Fridays, 2:00 PM - 3:30 PM";
           data_max_participants := 10;
           data_participants :=
             ["amelia@mergington.edu"; "benjamin@mergington.edu"] |});
      ("Science Club",
       {| data_description :=
             "Conduct experiments and explore scientific concepts";
           data_schedule := "Wednesdays, 4:00 PM - 5:00 PM";
           data_max_participants := 14;
           data_participants :=
             ["elijah@mergington.edu"; "harper@mergington.edu"] |}) ].

(** C7. [initialize_database] inserts the nine fixed activities exactly
    when the collection holds no document and otherwise leaves it alone;
    on the store seeded from empty, [get_activities] answers with exactly
    those nine activities and their literal data, Chess Club having
    capacity 12 and the participants michael@ and daniel@mergington.edu. *)
Theorem initialize_database_seeds :
  (∀ c : collection,
     initialize_database c
     = (Return (), match c with [] => initial_activities | _ :: _ => c end))
  ∧ length initial_activities = 9%nat
  ∧ NoDup (_id <$> initial_activities)
  ∧ (initialize_database []).2 = initial_activities
  ∧ get_activities (initialize_database []).2
    = (Return seeded_listing, initial_activities)
  ∧ size seeded_listing = 9%nat
  ∧ (∀ name data,
       seeded_listing !! name = Some data ↔
       ∃ d, d ∈ initial_activities ∧ _id d = name
            ∧ data = {| data_description := description d;
                        data_schedule := schedule d;
                        data_max_participants := max_participants d;
                        data_participants := participants d |})
  ∧ seeded_listing !! "Chess Club"
    = Some {| data_description :=
                "Learn strategies and compete in chess tournaments";
              data_schedule := "Fridays, 3:30 PM - 5:00 PM";
              data_max_participants := 12;
              data_participants :=
                ["michael@mergington.edu"; "daniel@mergington.edu"] |}.
Proof.
  assert (Hids : NoDup (_id <$> initial_activities)).
  { apply (bool_decide_unpack _). by vm_compute. }
  split_and!.
  - intros [|d c]; [apply initialize_database_empty|].
    by apply initialize_database_nonempty.
  - reflexivity.
  - exact Hids.
  - reflexivity.
  - vm_compute. reflexivity.
  - vm_compute. reflexivity.
  - intros name data.
    change seeded_listing with
      (list_to_map
         ((λ d, (_id d,
                 {| data_description := description d;
                    data_schedule := schedule d;
                    data_max_participants := max_participants d;
                    data_participants := participants d |}))
            <$> initial_activities) : gmap string activity_data).
    rewrite <- elem_of_list_to_map.
    + rewrite list_elem_of_fmap. split.
      * intros (d & [= -> ->] & Hd). by exists d.
      * intros (d & Hd & <- & ->). by exists d.
    + by rewrite <- list_fmap_compose.
  - vm_compute. reflexivity.
Qed.

(** ** C8: the listing *)

Section listing.
Implicit Types (c : collection) (name : string).
Implicit Types (acc : gmap string activity_data).

Lemma lookup_id_app name c1 c2 :
  Mongo.lookup_id name (c1 ++ c2)
  = match Mongo.lookup_id name c1 with
    | Some d => Some d
    | None => Mongo.lookup_id name c2
    end.
Proof.
  induction c1 as [|d c1 IH]; simpl; [done|]. by case_decide.
Qed.

(** The loop of [get_activities], started from any dictionary: the last
    document of a name decides the entry of that name. *)
Lemma listing_loop_lookup c acc name :
  foldl (λ activities_dict activity,
           <[_id activity := activity_data_of activity]> activities_dict)
        acc c !! name
  = match Mongo.lookup_id name (reverse c) with
    | Some d => Some (activity_data_of d)
    | None => acc !! name
    end.
Proof.
  revert acc. induction c as [|d c IH]; intros acc; [done|].
  cbn [foldl]. rewrite IH, reverse_cons, lookup_id_app.
  destruct (Mongo.lookup_id name (reverse c)); [done|]. simpl.
  case_decide as Hid.
  - subst name. apply lookup_insert_eq.
  - by apply lookup_insert_ne.
Qed.

(** With distinct names the order of the documents does not matter to a
    lookup. *)
Lemma lookup_id_reverse name c :
  unique_ids c →
  Mongo.lookup_id name (reverse c) = Mongo.lookup_id name c.
Proof.
  intros Hnd. destruct (Mongo.lookup_id name c) as [d|] eqn:Hfind.
  - apply lookup_id_Some in Hfind as [Hin <-].
    apply lookup_id_unique; [|by apply elem_of_reverse].
    unfold unique_ids. by rewrite fmap_reverse, reverse_Permutation.
  - apply lookup_id_None. rewrite fmap_reverse, elem_of_reverse.
    by apply lookup_id_None.
Qed.

End listing.

(** C8. On any collection [get_activities] answers 200 with a dictionary
    keyed by the activity names, and leaves the collection alone. Each
    value is a stored document of that name without its ["_id"]:
    description, schedule, max_participants and participants as stored.
    The names of a MongoDB collection being distinct, every stored
    document is listed under its name. *)
Theorem get_activities_listing (c : collection) :
  ∃ listing : gmap string activity_data,
    get_activities c = (Return listing, c)
    ∧ http_status (get_activities c).1 = 200
    ∧ (∀ name, name ∈ dom listing ↔ name ∈ _id <$> c)
    ∧ (∀ name data,
         listing !! name = Some data →
         ∃ d, d ∈ c ∧ _id d = name
              ∧ data = {| data_description := description d;
                          data_schedule := schedule d;
                          data_max_participants := max_participants d;
                          data_participants := participants d |})
    ∧ (unique_ids c →
       (∀ name,
          listing !! name = activity_data_of <$> Mongo.lookup_id name c)
       ∧ ∀ d, d ∈ c → listing !! _id d = Some (activity_data_of d)).
Proof.
  eexists. split; [reflexivity|]. split; [reflexivity|].
  assert (Hlook : ∀ name,
    foldl (λ activities_dict activity,
             <[_id activity := activity_data_of activity]> activities_dict)
          (∅ : gmap string activity_data) c !! name
    = activity_data_of <$> Mongo.lookup_id name (reverse c)).
  { intros name. rewrite listing_loop_lookup.
    destruct (Mongo.lookup_id name (reverse c)); [done|]. apply lookup_empty. }
  split_and!.
  - intros name. rewrite elem_of_dom, Hlook.
    destruct (Mongo.lookup_id name (reverse c)) as [d|] eqn:Hfind; simpl.
    + apply lookup_id_Some in Hfind as [Hin <-].
      apply (elem_of_reverse_2 d) in Hin. rewrite reverse_involutive in Hin.
      split; [intros _; by apply list_elem_of_fmap_2 | by eauto].
    + apply lookup_id_None in Hfind.
      rewrite fmap_reverse, elem_of_reverse in Hfind.
      split; [by intros [? [=]] | done].
  - intros name data. rewrite Hlook.
    destruct (Mongo.lookup_id name (reverse c)) as [d|] eqn:Hfind;
      simpl; [|done].
    intros [= <-]. apply lookup_id_Some in Hfind as [Hin <-].
    apply (elem_of_reverse_2 d) in Hin. rewrite reverse_involutive in Hin. by exists d.
  - intros Hnd.
    assert (Hlook' : ∀ name,
      foldl (λ activities_dict activity,
               <[_id activity := activity_data_of activity]> activities_dict)
            (∅ : gmap string activity_data) c !! name
      = activity_data_of <$> Mongo.lookup_id name c).
    { intros name. by rewrite Hlook, lookup_id_reverse. }
    split; [exact Hlook'|].
    intros d Hd. rewrite Hlook'. by rewrite lookup_id_unique.
Qed.

Lemma get_activities_listing_witness :
  unique_ids seeded
  ∧ ∃ listing : gmap string activity_data,
      get_activities seeded = (Return listing, seeded)
      ∧ (∀ name, name ∈ dom listing ↔ name ∈ _id <$> seeded)
      ∧ listing !! "Chess Club" = Some (activity_data_of chess_club)
      ∧ ∀ d, d ∈ seeded → listing !! _id d = Some (activity_data_of d).
Proof.
  assert (Hnd : unique_ids seeded).
  { apply (bool_decide_unpack _). by vm_compute. }
  split; [exact Hnd|].
  destruct (get_activities_listing seeded)
    as (listing & Hrun & _ & Hdom & _ & Hunique).
  destruct (Hunique Hnd) as [Hlook Hall].
  exists listing. split_and!; [exact Hrun | exact Hdom | | exact Hall].
  exact (Hlook "Chess Club").
Defined.

(** ** C10: what a write leaves alone *)

(** [d'] is [d] up to its roster. *)
Definition same_but_roster (d d' : document) : Prop :=
  _id d' = _id d
  ∧ description d' = description d
  ∧ schedule d' = schedule d
  ∧ max_participants d' = max_participants d.

(** [c'] holds the documents of [c], position by position, those not
    called [name] unchanged and those called [name] changed in their
    roster at most. *)
Definition touches_only (name : string) (c c' : collection) : Prop :=
  Forall2 (λ d d', same_but_roster d d' ∧ (_id d ≠ name → d' = d)) c c'.

Section frame.
Implicit Types (c : collection) (name email : string).

Lemma touches_only_refl name c : touches_only name c c.
Proof.
  apply Forall2_same_length_lookup_2; [done|].
  intros i d d' Hd Hd'. assert (d' = d) as -> by congruence.
  by repeat split.
Qed.

Lemma touches_only_modify name f c :
  touches_only name c (Mongo.modify_id name (Mongo.on_participants f) c).
Proof.
  eapply Forall2_impl; [apply modify_id_Forall2|].
  intros d d' [->|[Hid ->]]; by repeat split.
Qed.

Lemma touches_only_ids name c c' :
  touches_only name c c' → _id <$> c' = _id <$> c.
Proof.
  induction 1 as [|d d' c c' [(Hid & _) _] _ IH]; [done|].
  rewrite !fmap_cons. congruence.
Qed.

Lemma touches_only_lookup name name' c c' :
  touches_only name c c' → name' ≠ name →
  Mongo.lookup_id name' c' = Mongo.lookup_id name' c.
Proof.
  intros Hframe Hne.
  induction Hframe as [|d d' c c' [(Hid & _) Hsame] _ IH]; simpl; [done|].
  rewrite Hid. case_decide as Hd; [|done].
  rewrite Hsame; [done|]. congruence.
Qed.

End frame.

(** What C10 asks of the collection [c'] a call for the name [N] leaves
    behind [c]. *)
Definition framed (N : string) (c c' : collection) : Prop :=
  touches_only N c c'
  ∧ _id <$> c' = _id <$> c
  ∧ length c' = length c
  ∧ ∀ name, name ≠ N → Mongo.lookup_id name c' = Mongo.lookup_id name c.

(** C10. Whatever its outcome, a signup or unregister call for the
    activity name [N] leaves the collection with the same documents in the
    same places, each with its ["_id"], description, schedule and
    max_participants as before, and every document not called [N] as it
    was: no activity appears or disappears, and a lookup of any other name
    gives what it gave before. [get_activities] changes nothing at all,
    and neither does [initialize_database] once there are documents. *)
Theorem writes_touch_one_roster (N email : string) (c : collection) :
  framed N c (signup_for_activity N email c).2
  ∧ framed N c (unregister_from_activity N email c).2
  ∧ (get_activities c).2 = c
  ∧ (c ≠ [] → (initialize_database c).2 = c).
Proof.
  assert (Hframed : ∀ c', touches_only N c c' → framed N c c').
  { intros c' Hc'. split_and!.
    - done.
    - by eapply touches_only_ids.
    - symmetry. by eapply Forall2_length.
    - intros name Hne. by eapply touches_only_lookup. }
  split_and!.
  - apply Hframed.
    destruct (signup_state N email c) as [->|(A & _ & _ & _ & ->)].
    + apply touches_only_refl.
    + apply touches_only_modify.
  - apply Hframed.
    destruct (unregister_state N email c) as [->|(A & _ & _ & ->)].
    + apply touches_only_refl.
    + apply touches_only_modify.
  - reflexivity.
  - intros Hc. by rewrite initialize_database_nonempty.
Qed.

Lemma writes_touch_one_roster_witness :
  framed "Chess Club" seeded
    (signup_for_activity "Chess Club" "new@mergington.edu" seeded).2
  ∧ framed "Chess Club" seeded
      (unregister_from_activity "Chess Club" "new@mergington.edu" seeded).2
  ∧ (get_activities seeded).2 = seeded
  ∧ (initialize_database seeded).2 = seeded.
Proof.
  destruct (writes_touch_one_roster "Chess Club" "new@mergington.edu" seeded)
    as (Hsignup & Hunregister & Hget & Hinit).
  split_and!; [exact Hsignup | exact Hunregister | exact Hget |].
  apply Hinit. discriminate.
Defined.

(** * Further properties of the handlers

    What follows goes beyond the single call: when a call succeeds, what
    two calls in a row do, and what the reachable collections look like. *)

Section write_facts.
Implicit Types (c : collection) (A d : document) (N name email : string).

Lemma signup_Return_inv N email c msg c' :
  signup_for_activity N email c = (Return msg, c') →
  ∃ A, Mongo.lookup_id N c = Some A
       ∧ (email ∉ participants A)
       ∧ Z.of_nat (length (participants A)) < max_participants A
       ∧ msg = {[ "message" := "Signed up " +:+ email +:+ " for " +:+ N ]}
       ∧ c' = Mongo.modify_id N
                (Mongo.on_participants (Mongo.addToSet email)) c.
Proof.
  intros Hrun.
  destruct (Mongo.lookup_id N c) as [A|] eqn:Hfind;
    [|by rewrite signup_not_found in Hrun].
  destruct (decide (email ∈ participants A)) as [Hin|Hin];
    [by rewrite (signup_already _ _ _ A) in Hrun|].
  destruct (decide (Z.of_nat (length (participants A))
                      >= max_participants A)) as [Hlen|Hlen];
    [by rewrite (signup_full _ _ _ A) in Hrun|].
  rewrite (signup_ok _ _ _ A) in Hrun by (done || lia).
  injection Hrun as <- <-. exists A. split_and!; (done || lia).
Qed.

Lemma unregister_Return_inv N email c msg c' :
  unregister_from_activity N email c = (Return msg, c') →
  ∃ A, Mongo.lookup_id N c = Some A
       ∧ email ∈ participants A
       ∧ msg = {[ "message" := "Unregistered " +:+ email +:+ " from " +:+ N ]}
       ∧ c' = Mongo.modify_id N (Mongo.on_participants (Mongo.pull email)) c.
Proof.
  intros Hrun.
  destruct (Mongo.lookup_id N c) as [A|] eqn:Hfind;
    [|by rewrite unregister_not_found in Hrun].
  destruct (decide (email ∈ participants A)) as [Hin|Hin];
    [|by rewrite (unregister_not_registered _ _ _ A) in Hrun].
  rewrite (unregister_ok _ _ _ A) in Hrun by done.
  injection Hrun as <- <-. by exists A.
Qed.

(** An update that changes the document it is aimed at changes the
    collection. *)
Lemma modify_id_changes N upd c A :
  (∀ d, _id (upd d) = _id d) →
  Mongo.lookup_id N c = Some A → upd A ≠ A →
  Mongo.modify_id N upd c ≠ c.
Proof.
  intros Hupd Hfind Hne Heq.
  pose proof (lookup_modify_eq N upd c Hupd) as Hlook.
  rewrite Heq, Hfind in Hlook. simpl in Hlook. congruence.
Qed.

Lemma modify_id_modify_id N f g c :
  (∀ d, _id (f d) = _id d) →
  Mongo.modify_id N g (Mongo.modify_id N f c) = Mongo.modify_id N (g ∘ f) c.
Proof.
  intros Hf. induction c as [|d c IH]; simpl; [done|].
  case_decide as Hid; simpl.
  - by rewrite decide_True by (by rewrite Hf).
  - by rewrite decide_False, IH.
Qed.

Lemma modify_id_same N upd c :
  (∀ d, Mongo.lookup_id N c = Some d → upd d = d) →
  Mongo.modify_id N upd c = c.
Proof.
  induction c as [|d c IH]; simpl; [done|].
  case_decide as Hid; intros Hupd.
  - by rewrite Hupd.
  - by rewrite IH.
Qed.

Lemma pull_fresh email arr : email ∉ arr → Mongo.pull email arr = arr.
Proof.
  unfold Mongo.pull. induction arr as [|x arr IH]; [done|].
  rewrite not_elem_of_cons. intros [Hne Hnot].
  rewrite filter_cons_True by done. by rewrite IH.
Qed.

Lemma pull_addToSet email arr :
  email ∉ arr → Mongo.pull email (Mongo.addToSet email arr) = arr.
Proof.
  intros Hnot. rewrite addToSet_fresh by done. unfold Mongo.pull.
  rewrite filter_app, filter_cons_False, filter_nil by (by intros ?).
  rewrite app_nil_r. by apply pull_fresh.
Qed.

End write_facts.

(** X1. Signup answers 200 exactly when the activity exists, its roster
    does not hold the email and is shorter than [max_participants]; it
    writes to the collection exactly when it answers 200; and its status
    is never anything but 200, 400 or 404. *)
Theorem signup_succeeds_iff (N email : string) (c : collection) :
  (http_status (signup_for_activity N email c).1 = 200 ↔
   ∃ A, Mongo.lookup_id N c = Some A
        ∧ (email ∉ participants A)
        ∧ Z.of_nat (length (participants A)) < max_participants A)
  ∧ (http_status (signup_for_activity N email c).1 = 200 ↔
     (signup_for_activity N email c).2 ≠ c)
  ∧ (http_status (signup_for_activity N email c).1 = 200
     ∨ http_status (signup_for_activity N email c).1 = 400
     ∨ http_status (signup_for_activity N email c).1 = 404).
Proof.
  destruct (Mongo.lookup_id N c) as [A|] eqn:Hfind.
  2:{ rewrite signup_not_found by done. simpl.
      split_and!; [|split; [done|by intros []]|by auto].
      split; [done|]. by intros (A & [=] & _). }
  destruct (decide (email ∈ participants A)) as [Hin|Hin].
  { rewrite (signup_already _ _ _ A) by done. simpl.
    split_and!; [|split; [done|by intros []]|by auto].
    split; [done|]. intros (A' & [= <-] & Hnot & _). done. }
  destruct (decide (Z.of_nat (length (participants A))
                      >= max_participants A)) as [Hlen|Hlen].
  { rewrite (signup_full _ _ _ A) by done. simpl.
    split_and!; [|split; [done|by intros []]|by auto].
    split; [done|]. intros (A' & [= <-] & _ & Hlt). lia. }
  rewrite (signup_ok _ _ _ A) by (done || lia). simpl.
  split_and!; [|split; [intros _|done]|by auto].
  - split; [intros _|done]. exists A. split_and!; (done || lia).
  - apply (modify_id_changes _ _ _ A); [done|done|].
    intros Heq. apply (f_equal participants) in Heq. simpl in Heq.
    rewrite addToSet_fresh in Heq by done.
    apply (f_equal length) in Heq. rewrite length_app in Heq.
    simpl in Heq. lia.
Qed.

(** X2. Unregister answers 200 exactly when the activity exists and its
    roster holds the email; it writes to the collection exactly when it
    answers 200; and its status is never anything but 200, 400 or 404. *)
Theorem unregister_succeeds_iff (N email : string) (c : collection) :
  (http_status (unregister_from_activity N email c).1 = 200 ↔
   ∃ A, Mongo.lookup_id N c = Some A ∧ email ∈ participants A)
  ∧ (http_status (unregister_from_activity N email c).1 = 200 ↔
     (unregister_from_activity N email c).2 ≠ c)
  ∧ (http_status (unregister_from_activity N email c).1 = 200
     ∨ http_status (unregister_from_activity N email c).1 = 400
     ∨ http_status (unregister_from_activity N email c).1 = 404).
Proof.
  destruct (Mongo.lookup_id N c) as [A|] eqn:Hfind.
  2:{ rewrite unregister_not_found by done. simpl.
      split_and!; [|split; [done|by intros []]|by auto].
      split; [done|]. by intros (A & [=] & _). }
  destruct (decide (email ∈ participants A)) as [Hin|Hin].
  2:{ rewrite (unregister_not_registered _ _ _ A) by done. simpl.
      split_and!; [|split; [done|by intros []]|by auto].
      split; [done|]. intros (A' & [= <-] & Hin'). done. }
  rewrite (unregister_ok _ _ _ A) by done. simpl.
  split_and!; [|split; [intros _|done]|by auto].
  - split; [intros _|done]. by exists A.
  - apply (modify_id_changes _ _ _ A); [done|done|].
    intros Heq. apply (f_equal participants) in Heq. simpl in Heq.
    apply (pull_absent email (participants A)). by rewrite Heq.
Qed.

(** X3. A signup that succeeded cannot be repeated: the same call on the
    collection it left raises "Already signed up for this activity" and
    writes nothing. *)
Theorem signup_twice_rejected
    (N email : string) (c c' : collection) (msg : gmap string string) :
  signup_for_activity N email c = (Return msg, c') →
  signup_for_activity N email c'
  = (Raise (HTTPException 400 "Already signed up for this activity"), c').
Proof.
  intros (A & Hfind & Hnot & _ & _ & ->)%signup_Return_inv.
  apply (signup_already _ _ _
           (Mongo.on_participants (Mongo.addToSet email) A)).
  - rewrite lookup_modify_eq by apply on_participants_id. by rewrite Hfind.
  - simpl. rewrite addToSet_fresh by done. apply elem_of_app. right.
    by apply list_elem_of_singleton.
Qed.

Lemma signup_twice_rejected_witness :
  let c' := (signup_for_activity "Chess Club" "new@mergington.edu" seeded).2 in
  signup_for_activity "Chess Club" "new@mergington.edu" c'
  = (Raise (HTTPException 400 "Already signed up for this activity"), c').
Proof.
  intros c'.
  apply (signup_twice_rejected "Chess Club" "new@mergington.edu" seeded c'
           {[ "message" := "Signed up new@mergington.edu for Chess Club" ]}).
  vm_compute. reflexivity.
Defined.

(** X4. Unregistering right after a successful signup undoes it: the
    unregister call succeeds and the collection is again exactly the one
    before the signup. *)
Theorem signup_then_unregister_restores
    (N email : string) (c c' : collection) (msg : gmap string string) :
  signup_for_activity N email c = (Return msg, c') →
  unregister_from_activity N email c'
  = (Return {[ "message" := "Unregistered " +:+ email +:+ " from " +:+ N ]},
     c).
Proof.
  intros (A & Hfind & Hnot & _ & _ & ->)%signup_Return_inv.
  rewrite (unregister_ok _ _ _
             (Mongo.on_participants (Mongo.addToSet email) A)).
  - f_equal. rewrite modify_id_modify_id by apply on_participants_id.
    apply modify_id_same. intros d Hd. assert (d = A) as -> by congruence.
    destruct A as [i ds sc mx ps]. unfold Mongo.on_participants. simpl.
    f_equal. by apply pull_addToSet.
  - rewrite lookup_modify_eq by apply on_participants_id. by rewrite Hfind.
  - simpl. rewrite addToSet_fresh by done. apply elem_of_app. right.
    by apply list_elem_of_singleton.
Qed.

Lemma signup_then_unregister_restores_witness :
  unregister_from_activity "Chess Club" "new@mergington.edu"
    (signup_for_activity "Chess Club" "new@mergington.edu" seeded).2
  = (Return {[ "message" :=
                 "Unregistered new@mergington.edu from Chess Club" ]},
     seeded).
Proof.
  apply (signup_then_unregister_restores "Chess Club" "new@mergington.edu"
           seeded _
           {[ "message" := "Signed up new@mergington.edu for Chess Club" ]}).
  vm_compute. reflexivity.
Defined.

(** X5. A registered student of an activity whose roster fits (no
    duplicate, no more than [max_participants]) can leave and come back:
    unregister succeeds, the signup that follows succeeds too, and the
    roster ends with the same members, the student now last; no other
    activity is looked up differently. *)
Theorem unregister_then_signup_rejoins
    (N email : string) (c : collection) (A : document) :
  Mongo.lookup_id N c = Some A →
  email ∈ participants A →
  NoDup (participants A) →
  Z.of_nat (length (participants A)) <= max_participants A →
  ∃ msg c1 msg' c2,
    unregister_from_activity N email c = (Return msg, c1)
    ∧ signup_for_activity N email c1 = (Return msg', c2)
    ∧ (∃ A2, Mongo.lookup_id N c2 = Some A2
             ∧ _id A2 = _id A
             ∧ description A2 = description A
             ∧ schedule A2 = schedule A
             ∧ max_participants A2 = max_participants A
             ∧ participants A2
               = filter (λ x, x ≠ email) (participants A) ++ [email]
             ∧ participants A2 ≡ₚ participants A)
    ∧ ∀ name, name ≠ N → Mongo.lookup_id name c2 = Mongo.lookup_id name c.
Proof.
  intros Hfind Hin Hnd Hlen.
  assert (Hperm : filter (λ x, x ≠ email) (participants A) ++ [email]
                  ≡ₚ participants A).
  { apply NoDup_Permutation; [|done|].
    - apply NoDup_app. split_and!; [by apply NoDup_filter| |apply NoDup_singleton].
      intros x [Hx _]%list_elem_of_filter ->%list_elem_of_singleton. done.
    - intros x. rewrite elem_of_app, list_elem_of_filter, list_elem_of_singleton.
      destruct (decide (x = email)) as [->|Hne]; [by intuition|].
      by intuition. }
  set (A1 := Mongo.on_participants (Mongo.pull email) A).
  set (c1 := Mongo.modify_id N (Mongo.on_participants (Mongo.pull email)) c).
  assert (Hfind1 : Mongo.lookup_id N c1 = Some A1).
  { unfold c1. rewrite lookup_modify_eq by apply on_participants_id.
    by rewrite Hfind. }
  assert (Hlen1 : Z.of_nat (length (participants A1)) < max_participants A1).
  { apply Permutation_length in Hperm. rewrite length_app in Hperm.
    simpl in *. unfold Mongo.pull. lia. }
  eexists _, c1, _, _. split_and!.
  - by apply (unregister_ok _ _ _ A).
  - apply (signup_ok _ _ _ A1); [done| |done]. apply pull_absent.
  - eexists. split.
    { rewrite lookup_modify_eq by apply on_participants_id.
      by rewrite Hfind1. }
    simpl. rewrite addToSet_fresh by apply pull_absent. by split_and!.
  - intros name Hne. unfold c1.
    by rewrite !lookup_modify_ne by (done || apply on_participants_id).
Qed.

Lemma unregister_then_signup_rejoins_witness :
  ∃ msg c1 msg' c2,
    unregister_from_activity "Chess Club" "michael@mergington.edu" seeded
    = (Return msg, c1)
    ∧ signup_for_activity "Chess Club" "michael@mergington.edu" c1
      = (Return msg', c2)
    ∧ (∃ A2, Mongo.lookup_id "Chess Club" c2 = Some A2
             ∧ _id A2 = "Chess Club"
             ∧ description A2
               = "Learn strategies and compete in chess tournaments"
             ∧ schedule A2 = "Fridays, 3:30 PM - 5:00 PM"
             ∧ max_participants A2 = 12
             ∧ participants A2
               = ["daniel@mergington.edu"; "michael@mergington.edu"]
             ∧ participants A2
               ≡ₚ ["michael@mergington.edu"; "daniel@mergington.edu"])
    ∧ ∀ name, name ≠ "Chess Club" →
        Mongo.lookup_id name c2 = Mongo.lookup_id name seeded.
Proof.
  apply (unregister_then_signup_rejoins "Chess Club" "michael@mergington.edu"
           seeded chess_club).
  - reflexivity.
  - apply (bool_decide_unpack _). by vm_compute.
  - apply (bool_decide_unpack _). by vm_compute.
  - simpl. lia.
Defined.

(** ** Calls on different activities *)

Section independence.
Implicit Types (c : collection) (N email : string).
Implicit Types (h : string → string → M (gmap string string)).

(** Both write handlers have one shape: the document found under the name
    decides the outcome and the roster update, if any. *)
Lemma write_handler_shape h N email :
  h ∈ [signup_for_activity; unregister_from_activity] →
  ∃ (answer : option document → outcome (gmap string string))
    (update : option document → option (list string → list string)),
    ∀ c, h N email c
         = (answer (Mongo.lookup_id N c),
            match update (Mongo.lookup_id N c) with
            | Some f => Mongo.modify_id N (Mongo.on_participants f) c
            | None => c
            end).
Proof.
  intros [->|[->|[]%elem_of_nil]%elem_of_cons]%elem_of_cons.
  - exists (λ found,
              match found with
              | None => Raise (HTTPException 404 "Activity not found")
              | Some A =>
                  if decide (email ∈ participants A) then
                    Raise (HTTPException 400
                             "Already signed up for this activity")
                  else if decide (Z.of_nat (length (participants A))
                                    >= max_participants A) then
                    Raise (HTTPException 400 "Activity is full")
                  else
                    Return {[ "message" :=
                                "Signed up " +:+ email +:+ " for " +:+ N ]}
              end),
           (λ found,
              match found with
              | None => None
              | Some A =>
                  if decide (email ∈ participants A) then None
                  else if decide (Z.of_nat (length (participants A))
                                    >= max_participants A) then None
                  else Some (Mongo.addToSet email)
              end).
    intros c. unfold signup_for_activity, bind, Mongo.find_one.
    destruct (Mongo.lookup_id N c) as [A|]; [|done].
    by repeat case_decide.
  - exists (λ found,
              match found with
              | None => Raise (HTTPException 404 "Activity not found")
              | Some A =>
                  if decide (email ∉ participants A) then
                    Raise (HTTPException 400
                             "Student not registered for this activity")
                  else
                    Return {[ "message" :=
                                "Unregistered " +:+ email +:+ " from "
                                +:+ N ]}
              end),
           (λ found,
              match found with
              | None => None
              | Some A =>
                  if decide (email ∉ participants A) then None
                  else Some (Mongo.pull email)
              end).
    intros c. unfold unregister_from_activity, bind, Mongo.find_one.
    destruct (Mongo.lookup_id N c) as [A|]; [|done].
    by repeat case_decide.
Qed.

Lemma modify_id_comm N1 N2 f g c :
  N1 ≠ N2 →
  (∀ d, _id (f d) = _id d) → (∀ d, _id (g d) = _id d) →
  Mongo.modify_id N1 f (Mongo.modify_id N2 g c)
  = Mongo.modify_id N2 g (Mongo.modify_id N1 f c).
Proof.
  intros Hne Hf Hg. induction c as [|d c IH]; simpl; [done|].
  destruct (decide (_id d = N1)) as [H1|H1],
           (decide (_id d = N2)) as [H2|H2]; simpl.
  - congruence.
  - rewrite Hf. by rewrite decide_True, decide_False by done.
  - rewrite Hg. by rewrite decide_False, decide_True by done.
  - by rewrite !decide_False, IH by done.
Qed.

End independence.

(** X6. Signup and unregister calls for two different activity names do
    not interfere: either order leaves the same collection, and each call
    gets the answer it would have got alone. *)
Theorem writes_on_distinct_names_commute
    (h1 h2 : string → string → M (gmap string string))
    (N1 N2 email1 email2 : string) (c : collection) :
  h1 ∈ [signup_for_activity; unregister_from_activity] →
  h2 ∈ [signup_for_activity; unregister_from_activity] →
  N1 ≠ N2 →
  (h2 N2 email2 (h1 N1 email1 c).2).2 = (h1 N1 email1 (h2 N2 email2 c).2).2
  ∧ (h2 N2 email2 (h1 N1 email1 c).2).1 = (h2 N2 email2 c).1
  ∧ (h1 N1 email1 (h2 N2 email2 c).2).1 = (h1 N1 email1 c).1.
Proof.
  intros Hh1 Hh2 Hne.
  destruct (write_handler_shape h1 N1 email1 Hh1) as (a1 & u1 & E1).
  destruct (write_handler_shape h2 N2 email2 Hh2) as (a2 & u2 & E2).
  assert (L12 : ∀ f, Mongo.lookup_id N2
                       (Mongo.modify_id N1 (Mongo.on_participants f) c)
                     = Mongo.lookup_id N2 c).
  { intros f. apply lookup_modify_ne; [apply on_participants_id | congruence]. }
  assert (L21 : ∀ f, Mongo.lookup_id N1
                       (Mongo.modify_id N2 (Mongo.on_participants f) c)
                     = Mongo.lookup_id N1 c).
  { intros f. apply lookup_modify_ne; [apply on_participants_id | congruence]. }
  rewrite (E1 c), (E2 c). simpl.
  destruct (u1 (Mongo.lookup_id N1 c)) as [f1|] eqn:Hu1,
           (u2 (Mongo.lookup_id N2 c)) as [f2|] eqn:Hu2;
    rewrite ?E1, ?E2; simpl; rewrite ?L12, ?L21, ?Hu1, ?Hu2;
    split_and!; try done.
  symmetry. apply modify_id_comm; [done|apply on_participants_id..].
Qed.

Lemma writes_on_distinct_names_commute_witness :
  let h1 := signup_for_activity in
  let h2 := unregister_from_activity in
  (h2 "Gym Class" "john@mergington.edu"
     (h1 "Chess Club" "new@mergington.edu" seeded).2).2
  = (h1 "Chess Club" "new@mergington.edu"
       (h2 "Gym Class" "john@mergington.edu" seeded).2).2
  ∧ (h2 "Gym Class" "john@mergington.edu"
       (h1 "Chess Club" "new@mergington.edu" seeded).2).1
    = (h2 "Gym Class" "john@mergington.edu" seeded).1
  ∧ (h1 "Chess Club" "new@mergington.edu"
       (h2 "Gym Class" "john@mergington.edu" seeded).2).1
    = (h1 "Chess Club" "new@mergington.edu" seeded).1.
Proof.
  intros h1 h2.
  apply (writes_on_distinct_names_commute h1 h2
           "Chess Club" "Gym Class"
           "new@mergington.edu" "john@mergington.edu" seeded).
  - left.
  - right. left.
  - discriminate.
Defined.

(** ** The reachable collections *)

Section reachable_facts.
Implicit Types (c : collection) (N email : string).

Lemma reachable_Forall_roster_fits c : reachable c → Forall roster_fits c.
Proof.
  induction 1 as [|c N email msg c' _ IH Hrun|c N email msg c' _ IH Hrun].
  - apply seeded_roster_fits.
  - replace c' with (signup_for_activity N email c).2 by by rewrite Hrun.
    by apply signup_roster_fits.
  - replace c' with (unregister_from_activity N email c).2
      by by rewrite Hrun.
    by apply unregister_roster_fits.
Qed.

Lemma touches_only_same_but_roster N c c' :
  touches_only N c c' → Forall2 same_but_roster c c'.
Proof. intros H. eapply Forall2_impl; [exact H|]. by intros d d' [? _]. Qed.

Lemma same_but_roster_trans d1 d2 d3 :
  same_but_roster d1 d2 → same_but_roster d2 d3 → same_but_roster d1 d3.
Proof.
  intros (?&?&?&?) (?&?&?&?). repeat split; congruence.
Qed.

Lemma signup_touches_only N email c :
  touches_only N c (signup_for_activity N email c).2.
Proof.
  destruct (signup_state N email c) as [->|(A & _ & _ & _ & ->)].
  - apply touches_only_refl.
  - apply touches_only_modify.
Qed.

Lemma unregister_touches_only N email c :
  touches_only N c (unregister_from_activity N email c).2.
Proof.
  destruct (unregister_state N email c) as [->|(A & _ & _ & ->)].
  - apply touches_only_refl.
  - apply touches_only_modify.
Qed.

Lemma reachable_same_but_roster c :
  reachable c → Forall2 same_but_roster initial_activities c.
Proof.
  induction 1 as [|c N email msg c' _ IH Hrun|c N email msg c' _ IH Hrun].
  - change seeded with initial_activities.
    apply Forall2_same_length_lookup_2; [done|].
    intros i d d' Hd Hd'. assert (d' = d) as -> by congruence.
    by repeat split.
  - eapply Forall2_trans; [apply same_but_roster_trans | exact IH |].
    apply (touches_only_same_but_roster N).
    replace c' with (signup_for_activity N email c).2 by by rewrite Hrun.
    apply signup_touches_only.
  - eapply Forall2_trans; [apply same_but_roster_trans | exact IH |].
    apply (touches_only_same_but_roster N).
    replace c' with (unregister_from_activity N email c).2
      by by rewrite Hrun.
    apply unregister_touches_only.
Qed.

Lemma same_but_roster_ids c c' :
  Forall2 same_but_roster c c' → _id <$> c' = _id <$> c.
Proof.
  induction 1 as [|d d' c c' (Hid & _) _ IH]; [done|].
  rewrite !fmap_cons. congruence.
Qed.

Lemma pull_rejoin_Permutation email (arr : list string) :
  NoDup arr → email ∈ arr → Mongo.pull email arr ++ [email] ≡ₚ arr.
Proof.
  intros Hnd Hin. unfold Mongo.pull. apply NoDup_Permutation; [|done|].
  - apply NoDup_app.
    split_and!; [by apply NoDup_filter| |apply NoDup_singleton].
    intros x [Hx _]%list_elem_of_filter ->%list_elem_of_singleton. done.
  - intros x.
    rewrite elem_of_app, list_elem_of_filter, list_elem_of_singleton.
    destruct (decide (x = email)) as [->|Hne]; by intuition.
Qed.

End reachable_facts.

(** X7. However many successful signups and unregisters have been
    served since seeding, the collection still holds the nine seeded
    activities in their order, each with its seeded name, description,
    schedule and max_participants, and no name twice. *)
Theorem reachable_keeps_catalog (c : collection) :
  reachable c →
  Forall2 (λ d0 d, _id d = _id d0
                   ∧ description d = description d0
                   ∧ schedule d = schedule d0
                   ∧ max_participants d = max_participants d0)
          initial_activities c
  ∧ _id <$> c = _id <$> initial_activities
  ∧ NoDup (_id <$> c)
  ∧ length c = 9%nat.
Proof.
  intros Hreach%reachable_same_but_roster.
  pose proof (same_but_roster_ids _ _ Hreach) as Hids.
  split_and!.
  - exact Hreach.
  - exact Hids.
  - rewrite Hids. apply (bool_decide_unpack _). by vm_compute.
  - apply Forall2_length in Hreach. by rewrite <- Hreach.
Qed.

Lemma reachable_keeps_catalog_witness :
  let c := (signup_for_activity "Chess Club" "new@mergington.edu" seeded).2 in
  Forall2 (λ d0 d, _id d = _id d0
                   ∧ description d = description d0
                   ∧ schedule d = schedule d0
                   ∧ max_participants d = max_participants d0)
          initial_activities c
  ∧ _id <$> c = _id <$> initial_activities
  ∧ NoDup (_id <$> c)
  ∧ length c = 9%nat.
Proof.
  intros c. apply (reachable_keeps_catalog c).
  apply (reachable_signup seeded "Chess Club" "new@mergington.edu"
           {[ "message" := "Signed up new@mergington.edu for Chess Club" ]}
           c reachable_seeded).
  vm_compute. reflexivity.
Defined.

(** X8. On a collection reached from the seeded one, a successful signup
    takes exactly one seat of the activity and a successful unregister
    frees exactly one. *)
Theorem reachable_seat_accounting
    (N email : string) (c c' : collection) (A : document)
    (msg : gmap string string) :
  reachable c →
  Mongo.lookup_id N c = Some A →
  (signup_for_activity N email c = (Return msg, c') →
   ∃ A', Mongo.lookup_id N c' = Some A'
         ∧ length (participants A') = S (length (participants A)))
  ∧ (unregister_from_activity N email c = (Return msg, c') →
     ∃ A', Mongo.lookup_id N c' = Some A'
           ∧ S (length (participants A')) = length (participants A)).
Proof.
  intros Hfits%reachable_Forall_roster_fits Hfind. split.
  - intros (A0 & Hfind0 & Hnot & _ & _ & ->)%signup_Return_inv.
    assert (A0 = A) as -> by congruence. eexists. split.
    + rewrite lookup_modify_eq by apply on_participants_id.
      by rewrite Hfind.
    + simpl. rewrite addToSet_fresh by done. rewrite length_app. simpl. lia.
  - intros (A0 & Hfind0 & Hin & _ & ->)%unregister_Return_inv.
    assert (A0 = A) as -> by congruence. eexists. split.
    + rewrite lookup_modify_eq by apply on_participants_id.
      by rewrite Hfind.
    + simpl. apply lookup_id_Some in Hfind as [Hmem _].
      rewrite Forall_forall in Hfits. destruct (Hfits _ Hmem) as [_ Hnd].
      pose proof (pull_rejoin_Permutation email _ Hnd Hin) as Hperm.
      apply Permutation_length in Hperm. rewrite length_app in Hperm.
      simpl in Hperm. lia.
Qed.

Lemma reachable_seat_accounting_witness :
  (∃ A', Mongo.lookup_id "Chess Club"
           (signup_for_activity "Chess Club" "new@mergington.edu" seeded).2
         = Some A'
         ∧ length (participants A') = S (length (participants chess_club)))
  ∧ ∃ A', Mongo.lookup_id "Chess Club"
            (unregister_from_activity "Chess Club" "daniel@mergington.edu"
               seeded).2
          = Some A'
          ∧ S (length (participants A')) = length (participants chess_club).
Proof.
  split.
  - apply (reachable_seat_accounting "Chess Club" "new@mergington.edu"
             seeded _ chess_club
             {[ "message" := "Signed up new@mergington.edu for Chess Club" ]}
             reachable_seeded eq_refl).
    vm_compute. reflexivity.
  - apply (reachable_seat_accounting "Chess Club" "daniel@mergington.edu"
             seeded _ chess_club
             {[ "message" :=
                  "Unregistered daniel@mergington.edu from Chess Club" ]}
             reachable_seeded eq_refl).
    vm_compute. reflexivity.
Defined.

(** ** Filling an activity *)

(** The calls [signup_for_activity(N, email)] for the emails of a list,
    one after the other on the same collection; as in Python, the first
    exception ends the sequence. *)
Fixpoint signup_each (N : string) (emails : list string)
    : M (list (gmap string string)) :=
  match emails with
  | [] => ret []
  | email :: emails' =>
      let* answer := signup_for_activity N email in
      let* answers := signup_each N emails' in
      ret (answer :: answers)
  end.

Section filling.
Implicit Types (c : collection) (A : document) (N email : string).

Lemma on_participants_app_nil A :
  Mongo.on_participants (λ ps, ps ++ []) A = A.
Proof.
  destruct A. unfold Mongo.on_participants. simpl. by rewrite app_nil_r.
Qed.

Lemma signup_each_cons_ok N email emails c A :
  Mongo.lookup_id N c = Some A →
  email ∉ participants A →
  Z.of_nat (length (participants A)) < max_participants A →
  signup_each N (email :: emails) c
  = let c1 := Mongo.modify_id N
                (Mongo.on_participants (Mongo.addToSet email)) c in
    match signup_each N emails c1 with
    | (Return answers, c') =>
        (Return ({[ "message" := "Signed up " +:+ email +:+ " for " +:+ N ]}
                 :: answers), c')
    | (Raise e, c') => (Raise e, c')
    end.
Proof.
  intros Hfind Hnot Hlen. cbn [signup_each]. unfold bind at 1.
  rewrite (signup_ok _ _ _ A) by done. unfold bind, ret. simpl.
  by destruct (signup_each N emails _) as [[answers|e] c'].
Qed.

Lemma signup_each_cons_full N email emails c A :
  Mongo.lookup_id N c = Some A →
  email ∉ participants A →
  Z.of_nat (length (participants A)) >= max_participants A →
  signup_each N (email :: emails) c
  = (Raise (HTTPException 400 "Activity is full"), c).
Proof.
  intros Hfind Hnot Hlen. cbn [signup_each]. unfold bind at 1.
  by rewrite (signup_full _ _ _ A) by done.
Qed.

End filling.

(** X9. An activity takes exactly as many new students as it has free
    seats. When distinct emails, none of them in the roster, sign up one
    after the other, the first [max_participants - len(participants)] of
    them are appended to the roster in order; all calls succeed if the
    list is no longer than that, and otherwise the sequence stops with
    "Activity is full". *)
Theorem signup_each_fills
    (N : string) (emails : list string) (c : collection) (A : document) :
  Mongo.lookup_id N c = Some A →
  NoDup emails →
  (∀ email, email ∈ emails → email ∉ participants A) →
  Mongo.lookup_id N (signup_each N emails c).2
  = Some (Mongo.on_participants
            (λ ps, ps ++ take (Z.to_nat (max_participants A
                                         - Z.of_nat (length ps))) emails) A)
  ∧ (Z.of_nat (length emails)
     <= Z.max 0 (max_participants A - Z.of_nat (length (participants A))) →
     ∃ answers, (signup_each N emails c).1 = Return answers
                ∧ length answers = length emails)
  ∧ (Z.max 0 (max_participants A - Z.of_nat (length (participants A)))
     < Z.of_nat (length emails) →
     (signup_each N emails c).1
     = Raise (HTTPException 400 "Activity is full")).
Proof.
  revert c A. induction emails as [|email emails IH];
    intros c A Hfind Hnd Hfresh.
  { simpl. split_and!.
    - rewrite Hfind. f_equal. unfold Mongo.on_participants. simpl.
      rewrite take_nil. symmetry. apply on_participants_app_nil.
    - intros _. by exists [].
    - lia. }
  apply NoDup_cons in Hnd as [Hhead Hnd].
  assert (Hnot : email ∉ participants A) by (apply Hfresh; left).
  destruct (decide (Z.of_nat (length (participants A))
                      >= max_participants A)) as [Hfull|Hroom].
  { rewrite (signup_each_cons_full _ _ _ _ A) by done. simpl.
    split_and!.
    - rewrite Hfind. f_equal. unfold Mongo.on_participants. simpl.
      replace (Z.to_nat _) with 0%nat by lia. simpl.
      symmetry. apply on_participants_app_nil.
    - lia.
    - done. }
  rewrite (signup_each_cons_ok _ _ _ _ A) by (done || lia). cbv zeta.
  set (c1 := Mongo.modify_id N
               (Mongo.on_participants (Mongo.addToSet email)) c).
  set (A1 := Mongo.on_participants (Mongo.addToSet email) A).
  assert (Hfind1 : Mongo.lookup_id N c1 = Some A1).
  { unfold c1. rewrite lookup_modify_eq by apply on_participants_id.
    by rewrite Hfind. }
  assert (Hps1 : participants A1 = participants A ++ [email]).
  { simpl. by apply addToSet_fresh. }
  destruct (IH c1 A1 Hfind1 Hnd) as (Hlook & Hall & Hstop).
  { intros e He. rewrite Hps1, not_elem_of_app. split.
    - apply Hfresh. by right.
    - rewrite list_elem_of_singleton. intros ->. done. }
  assert (Hlen1 : Z.of_nat (length (participants A1))
                  = Z.of_nat (length (participants A)) + 1).
  { rewrite Hps1, length_app. simpl. lia. }
  change (max_participants A1) with (max_participants A) in *.
  destruct (signup_each N emails c1) as [[answers|e] c'] eqn:Hrest;
    simpl in *; split_and!.
  - rewrite Hlook. f_equal. unfold A1, Mongo.on_participants. simpl.
    f_equal. rewrite addToSet_fresh by done. rewrite length_app. simpl.
    replace (Z.to_nat (max_participants A
                       - Z.of_nat (length (participants A))))
      with (S (Z.to_nat (max_participants A
                         - Z.of_nat (length (participants A) + 1))))
      by lia.
    simpl. by rewrite <- app_assoc.
  - intros Hle. eexists. split; [done|]. simpl. f_equal.
    destruct Hall as (answers' & [= <-] & Hlen); [lia|done].
  - intros Hlt. by discriminate Hstop; lia.
  - rewrite Hlook. f_equal. unfold A1, Mongo.on_participants. simpl.
    f_equal. rewrite addToSet_fresh by done. rewrite length_app. simpl.
    replace (Z.to_nat (max_participants A
                       - Z.of_nat (length (participants A))))
      with (S (Z.to_nat (max_participants A
                         - Z.of_nat (length (participants A) + 1))))
      by lia.
    simpl. by rewrite <- app_assoc.
  - intros Hle. destruct Hall as (answers' & [=] & _). lia.
  - intros Hlt. apply Hstop. lia.
Qed.

Lemma signup_each_fills_witness :
  (Mongo.lookup_id "Chess Club"
     (signup_each "Chess Club"
        ["ada@mergington.edu"; "bea@mergington.edu"] seeded).2
   = Some (Mongo.on_participants
             (λ ps, ps ++ ["ada@mergington.edu"; "bea@mergington.edu"])
             chess_club)
   ∧ ∃ answers,
       (signup_each "Chess Club"
          ["ada@mergington.edu"; "bea@mergington.edu"] seeded).1
       = Return answers
       ∧ length answers = 2%nat)
  ∧ (signup_each "Debate"
       ["bob@mergington.edu"; "cy@mergington.edu"] [debate_duo]).1
    = Raise (HTTPException 400 "Activity is full").
Proof.
  split.
  - destruct (signup_each_fills "Chess Club"
                ["ada@mergington.edu"; "bea@mergington.edu"]
                seeded chess_club eq_refl) as (Hlook & Hall & _).
    + apply (bool_decide_unpack _). by vm_compute.
    + intros email Hin. apply (bool_decide_unpack _).
      apply elem_of_cons in Hin as [->|Hin]; [by vm_compute|].
      apply list_elem_of_singleton in Hin as ->. by vm_compute.
    + split; [exact Hlook|]. apply Hall. simpl. lia.
  - destruct (signup_each_fills "Debate"
                ["bob@mergington.edu"; "cy@mergington.edu"]
                [debate_duo] debate_duo eq_refl) as (_ & _ & Hstop).
    + apply (bool_decide_unpack _). by vm_compute.
    + intros email Hin. apply (bool_decide_unpack _).
      apply elem_of_cons in Hin as [->|Hin]; [by vm_compute|].
      apply list_elem_of_singleton in Hin as ->. by vm_compute.
    + apply Hstop. simpl. lia.
Defined.

(** ** The listing, again *)

Section listing_facts.
Implicit Types (c : collection) (d : document) (N name email : string).
Implicit Types (acc listing : gmap string activity_data).

Lemma get_activities_lookup c listing name :
  unique_ids c →
  (get_activities c).1 = Return listing →
  listing !! name = activity_data_of <$> Mongo.lookup_id name c.
Proof.
  intros Hnd [= <-]. rewrite listing_loop_lookup, lookup_id_reverse by done.
  destruct (Mongo.lookup_id name c); [done|]. apply lookup_empty.
Qed.

Lemma modify_id_unique_ids N f c :
  unique_ids c → unique_ids (Mongo.modify_id N (Mongo.on_participants f) c).
Proof.
  unfold unique_ids. intros Hnd.
  by rewrite (touches_only_ids N c) by apply touches_only_modify.
Qed.

Lemma lookup_id_Permutation name c c' :
  c ≡ₚ c' → unique_ids c →
  Mongo.lookup_id name c' = Mongo.lookup_id name c.
Proof.
  intros Hperm Hnd.
  assert (Hnd' : unique_ids c').
  { unfold unique_ids in *. by rewrite <- Hperm. }
  destruct (Mongo.lookup_id name c) as [d|] eqn:Hfind.
  - apply lookup_id_Some in Hfind as [Hin <-].
    apply lookup_id_unique; [done|]. by rewrite <- Hperm.
  - apply lookup_id_None. rewrite <- Hperm. by apply lookup_id_None.
Qed.




End listing_facts.

(** X10. After a successful signup the listing is the listing before
    with one entry replaced: the activity's entry, its participants now
    ending with the new email. Every other entry is the same. *)
Theorem listing_after_signup
    (N email : string) (c c' : collection) (msg : gmap string string)
    (listing listing' : gmap string activity_data) :
  unique_ids c →
  signup_for_activity N email c = (Return msg, c') →
  (get_activities c).1 = Return listing →
  (get_activities c').1 = Return listing' →
  ∃ data,
    listing !! N = Some data
    ∧ listing'
      = <[N := {| data_description := data_description data;
                  data_schedule := data_schedule data;
                  data_max_participants := data_max_participants data;
                  data_participants := data_participants data ++ [email] |}]>
          listing.
Proof.
  intros Hnd (A & Hfind & Hnot & _ & _ & ->)%signup_Return_inv Hl Hl'.
  exists (activity_data_of A). split.
  { by rewrite (get_activities_lookup c), Hfind. }
  apply map_eq. intros name.
  rewrite (get_activities_lookup _ listing' name
             (modify_id_unique_ids _ _ _ Hnd) Hl').
  destruct (decide (name = N)) as [->|Hne].
  - rewrite lookup_insert_eq.
    rewrite lookup_modify_eq, Hfind by apply on_participants_id.
    simpl. unfold activity_data_of. simpl. by rewrite addToSet_fresh.
  - rewrite lookup_insert_ne by done.
    rewrite lookup_modify_ne by (done || apply on_participants_id).
    symmetry. by apply get_activities_lookup.
Qed.

Lemma listing_after_signup_witness :
  ∃ listing listing' data,
    (get_activities seeded).1 = Return listing
    ∧ (get_activities
         (signup_for_activity "Chess Club" "new@mergington.edu" seeded).2).1
      = Return listing'
    ∧ listing !! "Chess Club" = Some data
    ∧ listing'
      = <["Chess Club" :=
            {| data_description := data_description data;
               data_schedule := data_schedule data;
               data_max_participants := data_max_participants data;
               data_participants :=
                 data_participants data ++ ["new@mergington.edu"] |}]>
          listing.
Proof.
  pose (c' := (signup_for_activity "Chess Club" "new@mergington.edu"
                 seeded).2).
  pose (l := match (get_activities seeded).1 with
             | Return l => l | Raise _ => ∅ end).
  pose (l' := match (get_activities c').1 with
              | Return l => l | Raise _ => ∅ end).
  exists l, l'.
  assert (Hnd : unique_ids seeded).
  { apply (bool_decide_unpack _). by vm_compute. }
  destruct (listing_after_signup "Chess Club" "new@mergington.edu" seeded c'
              {[ "message" := "Signed up new@mergington.edu for Chess Club" ]}
              l l' Hnd) as (data & Hdata & Hnew).
  - vm_compute. reflexivity.
  - reflexivity.
  - reflexivity.
  - exists data. split_and!; [reflexivity|reflexivity|exact Hdata|exact Hnew].
Defined.

(** X11. After a successful unregister the listing is the listing before
    with one entry replaced: the activity's entry, the email removed from
    its participants. Every other entry is the same. *)
Theorem listing_after_unregister
    (N email : string) (c c' : collection) (msg : gmap string string)
    (listing listing' : gmap string activity_data) :
  unique_ids c →
  unregister_from_activity N email c = (Return msg, c') →
  (get_activities c).1 = Return listing →
  (get_activities c').1 = Return listing' →
  ∃ data,
    listing !! N = Some data
    ∧ email ∈ data_participants data
    ∧ listing'
      = <[N := {| data_description := data_description data;
                  data_schedule := data_schedule data;
                  data_max_participants := data_max_participants data;
                  data_participants :=
                    filter (λ x, x ≠ email) (data_participants data) |}]>
          listing.
Proof.
  intros Hnd (A & Hfind & Hin & _ & ->)%unregister_Return_inv Hl Hl'.
  exists (activity_data_of A). split_and!.
  { by rewrite (get_activities_lookup c), Hfind. }
  { done. }
  apply map_eq. intros name.
  rewrite (get_activities_lookup _ listing' name
             (modify_id_unique_ids _ _ _ Hnd) Hl').
  destruct (decide (name = N)) as [->|Hne].
  - rewrite lookup_insert_eq.
    by rewrite lookup_modify_eq, Hfind by apply on_participants_id.
  - rewrite lookup_insert_ne by done.
    rewrite lookup_modify_ne by (done || apply on_participants_id).
    symmetry. by apply get_activities_lookup.
Qed.

Lemma listing_after_unregister_witness :
  ∃ listing listing' data,
    (get_activities seeded).1 = Return listing
    ∧ (get_activities
         (unregister_from_activity "Chess Club" "daniel@mergington.edu"
            seeded).2).1
      = Return listing'
    ∧ listing !! "Chess Club" = Some data
    ∧ "daniel@mergington.edu" ∈ data_participants data
    ∧ listing'
      = <["Chess Club" :=
            {| data_description := data_description data;
               data_schedule := data_schedule data;
               data_max_participants := data_max_participants data;
               data_participants :=
                 filter (λ x, x ≠ "daniel@mergington.edu")
                   (data_participants data) |}]>
          listing.
Proof.
  pose (c' := (unregister_from_activity "Chess Club"
                 "daniel@mergington.edu" seeded).2).
  pose (l := match (get_activities seeded).1 with
             | Return l => l | Raise _ => ∅ end).
  pose (l' := match (get_activities c').1 with
              | Return l => l | Raise _ => ∅ end).
  exists l, l'.
  assert (Hnd : unique_ids seeded).
  { apply (bool_decide_unpack _). by vm_compute. }
  destruct (listing_after_unregister "Chess Club" "daniel@mergington.edu"
              seeded c'
              {[ "message" :=
                   "Unregistered daniel@mergington.edu from Chess Club" ]}
              l l' Hnd) as (data & Hdata & Hin & Hnew).
  - vm_compute. reflexivity.
  - reflexivity.
  - reflexivity.
  - exists data.
    split_and!; [reflexivity|reflexivity|exact Hdata|exact Hin|exact Hnew].
Defined.



(** X13. The listing does not depend on the order in which the store
    hands out the documents: two collections with the same documents,
    their names distinct, get the same answer. *)
Theorem get_activities_order_irrelevant (c c' : collection) :
  unique_ids c → c ≡ₚ c' →
  (get_activities c').1 = (get_activities c).1.
Proof.
  intros Hnd Hperm.
  assert (Hnd' : unique_ids c').
  { unfold unique_ids in *. by rewrite <- Hperm. }
  destruct (get_activities c).1 as [l|e] eqn:Hl; [|done].
  destruct (get_activities c').1 as [l'|e] eqn:Hl'; [|done].
  f_equal. apply map_eq. intros name.
  rewrite (get_activities_lookup c' l') by done.
  rewrite (get_activities_lookup c l) by done.
  by rewrite (lookup_id_Permutation name c c').
Qed.

Lemma get_activities_order_irrelevant_witness :
  (get_activities (reverse seeded)).1 = (get_activities seeded).1.
Proof.
  apply (get_activities_order_irrelevant seeded (reverse seeded)).
  - apply (bool_decide_unpack _). by vm_compute.
  - symmetry. apply reverse_Permutation.
Defined.

(** X14. Start-up can be repeated: on any collection
    [initialize_database] returns without raising and leaves a non-empty
    collection on which a second run changes nothing; rosters that fit
    and names that are distinct stay so. *)
Theorem initialize_database_idempotent (c : collection) :
  ∃ c',
    initialize_database c = (Return (), c')
    ∧ c' ≠ []
    ∧ initialize_database c' = (Return (), c')
    ∧ (Forall roster_fits c → Forall roster_fits c')
    ∧ (unique_ids c → unique_ids c').
Proof.
  destruct c as [|d c].
  - exists initial_activities. split_and!; [done|done|done| |].
    + intros _. apply seeded_roster_fits.
    + intros _. apply (bool_decide_unpack _). by vm_compute.
  - exists (d :: c).
    by rewrite initialize_database_nonempty by done.
Qed.

(** X15. "Activity not found" is the answer for unknown names and for
    nothing else: signup and unregister answer 404 exactly when no
    document of the collection carries the name, whatever the email. *)
Theorem not_found_iff_unknown (N email : string) (c : collection) :
  (http_status (signup_for_activity N email c).1 = 404 ↔ N ∉ _id <$> c)
  ∧ (http_status (unregister_from_activity N email c).1 = 404 ↔
     N ∉ _id <$> c).
Proof.
  rewrite <- lookup_id_None.
  destruct (Mongo.lookup_id N c) as [A|] eqn:Hfind.
  - split.
    + destruct (decide (email ∈ participants A)) as [Hin|Hin];
        [by rewrite (signup_already _ _ _ A)|].
      destruct (decide (Z.of_nat (length (participants A))
                          >= max_participants A)) as [Hlen|Hlen];
        [by rewrite (signup_full _ _ _ A)|].
      by rewrite (signup_ok _ _ _ A) by (done || lia).
    + destruct (decide (email ∈ participants A)) as [Hin|Hin];
        [by rewrite (unregister_ok _ _ _ A)|].
      by rewrite (unregister_not_registered _ _ _ A).
  - by rewrite signup_not_found, unregister_not_found.
Qed.
